(** * The RNN-Transducer minimal example, as a shallow embedding

    Source: recipes/minimal_examples/neural_networks/ASR_Transducer/
            example_asr_transducer_experiment.py

    The file is glue over the toolkit: [TransducerBrain] (four hooks),
    [data_prep] and [main].  The hooks, the two pipelines, [data_prep] and
    [main] are embedded from the source.  What they call in [torch] and in
    the toolkit is a parameter: tensors and audio reading in class
    [Toolkit], the networks and the loss in [Modules] and [HParams], the two
    loops of the base class in [Env].  The label encoder, the dataset of
    dynamic items and the error-rate accumulator are toolkit code as well;
    they are modelled from the specification, and each such definition says
    so.  Python's own string methods and [%] formatting are written out. *)

From Stdlib Require Import ZArith Ascii String List DecimalString Lia.
From Stdlib Require Import Floats.PrimFloat Floats.SpecFloat Floats.FloatOps.
From stdpp Require Import gmap strings list.

Set Warnings "-clear-no-such-hyp".

Open Scope Z_scope.

(** ** Exceptions and results *)

(** The Python exceptions the embedded code can raise or let through. *)
Inductive Exn : Type :=
| KeyError (key : string)
| AttributeError (attr : string)
| ValueError (msg : string)
| TypeError (msg : string)
| IndexError
| OSError (path : string)
| Skipped (modname : string)
| AssertionError.

(** A call either raises or returns. *)
Definition Result (A : Type) : Type := Exn + A.

Definition raise {A : Type} (e : Exn) : Result A := inl e.

#[global] Instance Result_ret : MRet Result := fun A x => inr x.
#[global] Instance Result_bind : MBind Result :=
  fun A B f r => match r with inl e => inl e | inr x => f x end.

(** Runs [f] over a list from left to right and stops at the first raise. *)
Fixpoint mapR {A B : Type} (f : A -> Result B) (l : list A) : Result (list B) :=
  match l with
  | [] => inr []
  | x :: l' =>
      match f x with
      | inl e => inl e
      | inr y => match mapR f l' with inl e => inl e | inr ys => inr (y :: ys) end
      end
  end.

(** A loop with an accumulator that stops at the first raise. *)
Fixpoint foldR {A S : Type} (f : S -> A -> Result S) (s : S) (l : list A) : Result S :=
  match l with
  | [] => inr s
  | x :: l' => match f s x with inl e => inl e | inr s' => foldR f s' l' end
  end.

(** ** Python string methods used by the text pipeline *)

(** [str.isspace] on one character, for the ASCII range: tab, newline,
    vertical tab, form feed, carriage return, the four separators
    0x1c..0x1f, and space. *)
Definition is_space (c : ascii) : bool :=
  let n := nat_of_ascii c in
  ((9 <=? n)%nat && (n <=? 13)%nat) || ((28 <=? n)%nat && (n <=? 32)%nat).

(** [s.lstrip()] *)
Fixpoint lstrip (s : string) : string :=
  match s with
  | EmptyString => EmptyString
  | String c s' => if is_space c then lstrip s' else s
  end.

(** [s.rstrip()] *)
Fixpoint rstrip (s : string) : string :=
  match s with
  | EmptyString => EmptyString
  | String c s' =>
      match rstrip s' with
      | EmptyString => if is_space c then EmptyString else String c EmptyString
      | r => String c r
      end
  end.

(** [s.strip()] *)
Definition strip (s : string) : string := rstrip (lstrip s).

(** [s.split()] with no separator: the maximal runs of non-space
    characters.  [cur] is the word being read, if one has started. *)
Fixpoint split_from (cur : option string) (s : string) : list string :=
  match s with
  | EmptyString => match cur with Some w => [w] | None => [] end
  | String c s' =>
      if is_space c then
        match cur with
        | Some w => w :: split_from None s'
        | None => split_from None s'
        end
      else
        split_from (Some (default EmptyString cur +:+ String c EmptyString)) s'
  end.

Definition split (s : string) : list string := split_from None s.

(** [pathlib]'s [folder / name]. *)
Definition path_join (folder name : string) : string := folder +:+ "/" +:+ name.

(** [str % int] for the directive [%d]. *)
Definition fmt_d (n : Z) : string := NilZero.string_of_int (Z.to_int n).

(** The decimal digits of a natural number. *)
Definition digits (n : Z) : string := NilZero.string_of_uint (N.to_uint (Z.to_N n)).

(** The hundredths nearest to [m * 2^e], a tie going to the even one. *)
Definition hundredths (m : positive) (e : Z) : Z :=
  let n := 100 * Z.pos m in
  if 0 <=? e then n * 2 ^ e
  else
    let d := 2 ^ (- e) in
    let q := n / d in
    let r := n mod d in
    if (d <? 2 * r) || ((d =? 2 * r) && Z.odd q) then q + 1 else q.

(** [str % float] for the directive [%.2f]: the value rounded to two
    decimals, from the exact binary value of the float. *)
Definition fmt_2f (x : float) : string :=
  let sign := fun s : bool => if s then "-" else "" in
  match Prim2SF x with
  | S754_nan => "nan"
  | S754_infinity s => sign s +:+ "inf"
  | S754_zero s => sign s +:+ "0.00"
  | S754_finite s m e =>
      let q := hundredths m e in
      let frac := q mod 100 in
      sign s +:+ digits (q / 100) +:+ "." +:+
        (if frac <? 10 then "0" else "") +:+ digits frac
  end.

(** ** The toolkit, as a parameter *)

(** What the example calls in the toolkit and in [torch].  Tensors are kept
    abstract; the networks and losses over them live in [Modules] and
    [HParams] below. *)
Class Toolkit : Type := {
  (** [torch.Tensor], of any element type *)
  Tensor : Type;
  (** [x.unsqueeze(dim)] *)
  unsqueeze : Tensor -> Z -> Tensor;
  (** [x.to(device)] *)
  tensor_to : Tensor -> string -> Tensor;
  (** [x.long()] *)
  long : Tensor -> Tensor;
  (** [sb.data_io.data_io.read_audio(wav)] *)
  read_audio : string -> Result Tensor;
  (** [stats.summarize(field)] of the error-rate accumulator, over the
      batches appended so far: ids, hypotheses, targets, target lengths *)
  summarize : list (list string * list (list Z) * Tensor * Tensor) -> string -> float;
  (** [bos_label], [blank_label] and [eos_index]: the defaults of the label
      encoder's [insert_blank] and [insert_bos_eos], which [data_prep]
      leaves to the toolkit *)
  blank_label_default : string;
  bos_label_default : string;
  eos_index_default : Z
}.

(** [sb.Stage] *)
Inductive Stage : Type := TRAIN | VALID | TEST.

#[global] Instance Stage_eq_dec : EqDecision Stage.
Proof. solve_decision. Defined.

(** [str(stage)], as [print(stage, ...)] renders it. *)
Definition Stage_str (stage : Stage) : string :=
  match stage with
  | TRAIN => "Stage.TRAIN"
  | VALID => "Stage.VALID"
  | TEST => "Stage.TEST"
  end.

(** ** Label encoder *)

(** Modelled from the spec: the label encoder ([CTCTextEncoder], absent from
    the sources) is "a mapping from phoneme symbol to integer id, including
    reserved ids for blank, beginning-of-sequence and end-of-sequence
    markers".  The mapping is [lab2ind]; the encoder also remembers which
    labels stand for the markers. *)
Record CTCTextEncoder : Type := {
  lab2ind : gmap string Z;
  blank_label : option string;
  bos_label : option string;
  eos_label : option string
}.

(** Modelled from the spec: [CTCTextEncoder()], the encoder before fitting. *)
Definition CTCTextEncoder_new : CTCTextEncoder :=
  {| lab2ind := ∅; blank_label := None; bos_label := None; eos_label := None |}.

(** The number of entries of the vocabulary. *)
Definition vocab_size (e : CTCTextEncoder) : nat := size (lab2ind e).

Definition with_lab2ind (m : gmap string Z) (e : CTCTextEncoder) : CTCTextEncoder :=
  {| lab2ind := m; blank_label := blank_label e;
     bos_label := bos_label e; eos_label := eos_label e |}.

(** Modelled from the spec: a reserved marker gets the configured id
    ("special token indices"); the label is bound to exactly that index. *)
Definition insert_label (label : string) (index : Z) (e : CTCTextEncoder) : CTCTextEncoder :=
  with_lab2ind (<[label := index]> (lab2ind e)) e.

(** The id a new symbol gets: the least id from 0 that no label holds. *)
Definition next_index (m : gmap string Z) : Z :=
  let used := (map_to_list m).*2 in
  match list_find (fun n => bool_decide (Z.of_nat n ∉ used)) (seq 0 (S (size m))) with
  | Some (_, n) => Z.of_nat n
  | None => Z.of_nat (S (size m))
  end.

(** Modelled from the spec: scanning a symbol adds it to the vocabulary
    unless the mapping has it already. *)
Definition ensure_label (e : CTCTextEncoder) (label : string) : CTCTextEncoder :=
  match lab2ind e !! label with
  | Some _ => e
  | None => with_lab2ind (<[label := next_index (lab2ind e)]> (lab2ind e)) e
  end.

(** The scan of one token list. *)
Definition update_from_iterable (e : CTCTextEncoder) (labels : list string) : CTCTextEncoder :=
  foldl ensure_label e labels.

(** Modelled from the spec: [insert_blank(index)] reserves the blank marker. *)
Definition insert_blank (blank : string) (index : Z) (e : CTCTextEncoder) : CTCTextEncoder :=
  let e' := insert_label blank index e in
  {| lab2ind := lab2ind e'; blank_label := Some blank;
     bos_label := bos_label e'; eos_label := eos_label e' |}.

(** Modelled from the spec: [insert_bos_eos(bos_label, eos_label, bos_index,
    eos_index)] reserves the two sequence markers.  The encoder is a mapping
    from symbol to id: when both markers carry one label there is one entry,
    at [bos_index]. *)
Definition insert_bos_eos (bos eos : string) (bos_index eos_index : Z)
    (e : CTCTextEncoder) : CTCTextEncoder :=
  let e' :=
    if decide (bos = eos) then insert_label bos bos_index e
    else insert_label eos eos_index (insert_label bos bos_index e) in
  {| lab2ind := lab2ind e'; blank_label := blank_label e';
     bos_label := Some bos; eos_label := Some eos |}.

(** Modelled from the spec: the id of one symbol; a symbol outside the
    vocabulary is an error. *)
Definition encode_label (e : CTCTextEncoder) (label : string) : Result Z :=
  match lab2ind e !! label with
  | Some i => inr i
  | None => raise (KeyError label)
  end.

(** Modelled from the spec: "the integer-encoded sequence" of a token list. *)
Definition encode_sequence_torch (e : CTCTextEncoder) (labels : list string) : Result (list Z) :=
  mapR (encode_label e) labels.

(** Modelled from the spec: "the same sequence with a start token
    prepended"; the start token is the id of the begin marker. *)
Definition prepend_bos_index (e : CTCTextEncoder) (x : list Z) : Result (list Z) :=
  match bos_label e with
  | None => raise (KeyError "bos_label")
  | Some b => i ← encode_label e b; mret (i :: x)
  end.

(** ** Datasets of dynamic items *)

Section Definitions.
Context `{TK : Toolkit}.

(** One entry of a manifest: "an utterance id to {audio file path, phoneme
    transcript string}". *)
Record Utterance : Type := {
  utt_id : string;
  wav : string;
  phn : string
}.

(** Reading a JSON manifest at a path, with the replacements applied: the
    entries in file order, or the error of a missing or malformed file. *)
Definition FileSystem : Type := string -> list (string * string) -> Result (list Utterance).

(** The values a dataset item holds under its keys. *)
Inductive Value : Type :=
| VStr (s : string)
| VSig (x : Tensor)
| VList (l : list string)
| VLong (l : list Z).

(** Modelled from the spec: a declared pipeline, "a short, ordered,
    multi-stage lazy computation".  [takes] and [provides] are the two
    decorators; [run e args k] advances the function to its [k]-th yield and
    gives what it has yielded so far.  [e] is the label encoder as it is at
    the time of the call: the pipelines hold it by reference. *)
Record DynamicItem : Type := {
  takes : list string;
  provides : list string;
  run : CTCTextEncoder -> list Value -> nat -> Result (list Value)
}.

(** Modelled from the spec: the dataset ([DynamicItemDataset], absent from
    the sources): the records of the manifest, the pipelines attached to
    them, and the keys an item shows. *)
Record Dataset : Type := {
  data : list Utterance;
  pipeline : list DynamicItem;
  output_keys : list string
}.

(** Modelled from the spec: [DynamicItemDataset.from_json]; "fails if a
    referenced manifest file is missing or malformed". *)
Definition from_json (fs : FileSystem) (json_path : string)
    (replacements : list (string * string)) : Result Dataset :=
  entries ← fs json_path replacements;
  mret {| data := entries; pipeline := []; output_keys := [] |}.

(** Modelled from the spec: [add_dynamic_item(datasets, func)] attaches the
    pipeline to each dataset of the list, in place; this is the update of
    one of them. *)
Definition add_dynamic_item (d : Dataset) (item : DynamicItem) : Dataset :=
  {| data := data d; pipeline := pipeline d ++ [item]; output_keys := output_keys d |}.

(** Modelled from the spec: [set_output_keys(datasets, keys)] "restricts each
    dataset's externally visible fields", in place; this is the update of
    one of them. *)
Definition set_output_keys (d : Dataset) (keys : list string) : Dataset :=
  {| data := data d; pipeline := pipeline d; output_keys := keys |}.

(** A field of the manifest record, by key. *)
Definition static_key (u : Utterance) (key : string) : option Value :=
  if decide (key = "id") then Some (VStr (utt_id u))
  else if decide (key = "wav") then Some (VStr (wav u))
  else if decide (key = "phn") then Some (VStr (phn u))
  else None.

(** The position of [key] in a list of keys. *)
Fixpoint key_index (key : string) (keys : list string) : option nat :=
  match keys with
  | [] => None
  | k :: keys' => if decide (k = key) then Some O else S <$> key_index key keys'
  end.

(** The pipeline that provides [key], with the position of the key in what
    it provides. *)
Fixpoint provider (key : string) (items : list DynamicItem) : option (DynamicItem * nat) :=
  match items with
  | [] => None
  | it :: items' =>
      match key_index key (provides it) with
      | Some n => Some (it, n)
      | None => provider key items'
      end
  end.

(** Modelled from the spec: one field of one record, "computed on demand per
    access": a manifest field as it is, a derived field by running its
    pipeline up to the yield that provides it.  The pipelines of this file
    take manifest fields only. *)
Definition compute_key (e : CTCTextEncoder) (d : Dataset) (u : Utterance)
    (key : string) : Result Value :=
  match static_key u key with
  | Some v => mret v
  | None =>
      match provider key (pipeline d) with
      | None => raise (KeyError key)
      | Some (it, n) =>
          args ← mapR (fun k => match static_key u k with
                                | Some v => mret v
                                | None => raise (KeyError k)
                                end) (takes it);
          outs ← run it e args (S n);
          match outs !! n with
          | Some v => mret v
          | None => raise (ValueError "pipeline yielded too few values")
          end
      end
  end.

(** Modelled from the spec: [dataset[i]], the item with the visible keys, in
    the order of [output_keys]. *)
Definition getitem (e : CTCTextEncoder) (d : Dataset) (i : nat) : Result (list (string * Value)) :=
  match data d !! i with
  | None => raise IndexError
  | Some u => mapR (fun key => v ← compute_key e d u key; mret (key, v)) (output_keys d)
  end.

(** [len(dataset)] *)
Definition Dataset_len (d : Dataset) : nat := length (data d).

(** Modelled from the spec: [update_from_didataset(dataset, output_key)],
    "scanning the token lists": each record's [output_key] is computed in
    turn and its symbols are added.  The records are read lazily, so each is
    computed against the encoder as updated so far. *)
Definition update_from_didataset (e : CTCTextEncoder) (d : Dataset)
    (output_key : string) : Result CTCTextEncoder :=
  foldR (fun e u =>
           v ← compute_key e d u output_key;
           match v with
           | VList labels => mret (update_from_iterable e labels)
           | _ => raise (TypeError "expected a sequence of labels")
           end) e (data d).

(** ** [data_prep] *)

(** [audio_pipeline], lines 95-99: takes "wav", provides "sig". *)
Definition audio_pipeline : DynamicItem :=
  {| takes := ["wav"];
     provides := ["sig"];
     run := fun _ args _ =>
       match args with
       | [VStr wav] => sig ← read_audio wav; mret [VSig sig]
       | _ => raise (TypeError "audio_pipeline")
       end |}.

(** The body of [text_pipeline], lines 108-114, advanced to its [k]-th
    yield.  [.long()] leaves a sequence of integer ids as it is. *)
Definition text_pipeline_run (label_encoder : CTCTextEncoder) (phn : string)
    (k : nat) : Result (list Value) :=
  match k with
  | O => mret []
  | S k1 =>
      let phn_list := split (strip phn) in
      match k1 with
      | O => mret [VList phn_list]
      | S k2 =>
          phn_encoded ← encode_sequence_torch label_encoder phn_list;
          match k2 with
          | O => mret [VList phn_list; VLong phn_encoded]
          | S _ =>
              phn_encoded_bos ← prepend_bos_index label_encoder phn_encoded;
              mret [VList phn_list; VLong phn_encoded; VLong phn_encoded_bos]
          end
      end
  end.

(** [text_pipeline], lines 104-114: takes "phn", provides "phn_list",
    "phn_encoded", "phn_encoded_bos". *)
Definition text_pipeline : DynamicItem :=
  {| takes := ["phn"];
     provides := ["phn_list"; "phn_encoded"; "phn_encoded_bos"];
     run := fun label_encoder args k =>
       match args with
       | [VStr phn] => text_pipeline_run label_encoder phn k
       | _ => raise (TypeError "text_pipeline")
       end |}.

(** The networks of [hparams["modules"]], as [self.modules] names them. *)
Record Modules : Type := {
  compute_features : Tensor -> Tensor;
  mean_var_norm : Tensor -> Tensor -> Tensor;
  enc : Tensor -> Tensor;
  enc_lin : Tensor -> Tensor;
  emb : Tensor -> Tensor;
  dec : Tensor -> Tensor * Tensor;
  dec_lin : Tensor -> Tensor;
  Tjoint : Tensor -> Tensor -> Tensor;
  output : Tensor -> Tensor
}.

(** The loaded configuration: what the example reads of it. *)
Record HParams : Type := {
  hp_modules : Modules;
  hp_opt_class : string;
  log_softmax : Tensor -> Tensor;
  searcher : Tensor -> list (list Z) * Tensor * Tensor * Tensor;
  compute_cost : Tensor -> Tensor -> Tensor -> Tensor -> Tensor;
  blank_index : Z;
  bos_index : Z;
  N_epochs : Z;
  dataloader_options : list (string * Z)
}.

(** [data_prep], lines 79-131.  [datasets] is the list of the two dataset
    objects, so what is done to [datasets] is done to [train_data] and to
    [valid_data].  The text pipeline is attached before the encoder is
    fitted and holds the encoder by reference: the items of the returned
    datasets are computed against the returned encoder. *)
Definition data_prep (fs : FileSystem) (data_folder : string) (hparams : HParams)
    : Result (Dataset * Dataset * CTCTextEncoder) :=
  (* 1. Declarations *)
  train_data ← from_json fs (path_join data_folder "train.json")
                 [("data_root", data_folder)];
  valid_data ← from_json fs (path_join data_folder "dev.json")
                 [("data_root", data_folder)];
  let label_encoder := CTCTextEncoder_new in
  (* 2. Define audio pipeline *)
  let train_data := add_dynamic_item train_data audio_pipeline in
  let valid_data := add_dynamic_item valid_data audio_pipeline in
  (* 3. Define text pipeline *)
  let train_data := add_dynamic_item train_data text_pipeline in
  let valid_data := add_dynamic_item valid_data text_pipeline in
  (* 3. Fit encoder *)
  let label_encoder :=
    insert_blank blank_label_default (blank_index hparams) label_encoder in
  let label_encoder :=
    insert_bos_eos bos_label_default "<bos>" (bos_index hparams) eos_index_default
      label_encoder in
  label_encoder ← update_from_didataset label_encoder train_data "phn_list";
  label_encoder ← update_from_didataset label_encoder valid_data "phn_list";
  (* 4. Set output *)
  let keys := ["id"; "sig"; "phn_encoded"; "phn_encoded_bos"] in
  let train_data := set_output_keys train_data keys in
  let valid_data := set_output_keys valid_data keys in
  mret (train_data, valid_data, label_encoder).

(** The phoneme symbols of a dataset, record by record. *)
Definition phoneme_symbols (d : list Utterance) : list string :=
  concat ((fun u => split (strip (phn u))) <$> d).

(** ** [TransducerBrain] *)

(** A padded batch of the data loader: the four output keys, each tensor
    field as the pair (data, lengths). *)
Record Batch : Type := {
  batch_id : list string;
  batch_sig : Tensor * Tensor;
  batch_phn_encoded : Tensor * Tensor;
  batch_phn_encoded_bos : Tensor * Tensor
}.

(** [batch.to(device)] *)
Definition Batch_to (batch : Batch) (device : string) : Batch :=
  let move := fun p : Tensor * Tensor => (tensor_to p.1 device, tensor_to p.2 device) in
  {| batch_id := batch_id batch;
     batch_sig := move (batch_sig batch);
     batch_phn_encoded := move (batch_phn_encoded batch);
     batch_phn_encoded_bos := move (batch_phn_encoded_bos batch) |}.

(** What [compute_forward] returns: a 2-tuple or a 3-tuple. *)
Inductive Predictions : Type :=
| Pred2 (outputs lens : Tensor)
| Pred3 (outputs lens : Tensor) (hyps : list (list Z)).

(** Modelled from the spec: the error-rate accumulator, absent from the
    sources, "accumulates a phoneme error-rate statistic": it is the
    sequence of what was appended, one entry for each [append]. *)
Definition ErrorRateStats : Type := list (list string * list (list Z) * Tensor * Tensor).

(** Modelled from the spec: [hparams.per_stats()], a new accumulator, which
    holds nothing. *)
Definition per_stats (_ : unit) : ErrorRateStats := [].

(** Modelled from the spec: [stats.append(ids, predict, target, target_len)]. *)
Definition ErrorRateStats_append (stats : ErrorRateStats) (ids : list string)
    (predict : list (list Z)) (target target_len : Tensor) : ErrorRateStats :=
  stats ++ [(ids, predict, target, target_len)].

(** The instance: what the base class holds and the example reads
    ([modules], [hparams], [device]), and the two attributes the example
    itself sets, each absent until its first assignment. *)
Record TransducerBrain : Type := {
  modules : Modules;
  hparams : HParams;
  device : string;
  train_loss : option float;
  per_metrics : option ErrorRateStats
}.

(** [TransducerBrain(modules, opt_class, hparams)]: the example defines no
    constructor, so neither attribute is set. *)
Definition TransducerBrain_new (modules : Modules) (opt_class : string)
    (hparams : HParams) (device : string) : TransducerBrain :=
  {| modules := modules; hparams := hparams; device := device;
     train_loss := None; per_metrics := None |}.

(** What a hook can change: the instance and the standard output. *)
Record World : Type := {
  brain : TransducerBrain;
  stdout : list string
}.

(** A hook: it returns or raises, and leaves a world behind either way. *)
Definition M (A : Type) : Type := World -> Result A * World.

#[global] Instance M_ret : MRet M := fun A x w => (inr x, w).
#[global] Instance M_bind : MBind M :=
  fun A B f m w => match m w with
                   | (inl e, w') => (inl e, w')
                   | (inr x, w') => f x w'
                   end.

Definition M_raise {A : Type} (e : Exn) : M A := fun w => (inl e, w).

(** [print(line)] *)
Definition print (line : string) : M unit :=
  fun w => (inr tt, {| brain := brain w; stdout := stdout w ++ [line] |}).

(** [self.train_loss], read *)
Definition get_train_loss : M float :=
  fun w => match train_loss (brain w) with
           | Some x => (inr x, w)
           | None => (inl (AttributeError "train_loss"), w)
           end.

(** [self.train_loss = x] *)
Definition set_train_loss (x : float) : M unit :=
  fun w => (inr tt,
            {| brain := {| modules := modules (brain w); hparams := hparams (brain w);
                          device := device (brain w); train_loss := Some x;
                          per_metrics := per_metrics (brain w) |};
               stdout := stdout w |}).

(** [self.per_metrics], read *)
Definition get_per_metrics : M ErrorRateStats :=
  fun w => match per_metrics (brain w) with
           | Some s => (inr s, w)
           | None => (inl (AttributeError "per_metrics"), w)
           end.

(** [self.per_metrics = s], and the update in place of the object it names *)
Definition set_per_metrics (s : ErrorRateStats) : M unit :=
  fun w => (inr tt,
            {| brain := {| modules := modules (brain w); hparams := hparams (brain w);
                          device := device (brain w); train_loss := train_loss (brain w);
                          per_metrics := Some s |};
               stdout := stdout w |}).

(** [when c m]: [if c: m] *)
Definition when (c : bool) (m : M unit) : M unit := if c then m else mret tt.

(** [compute_forward], lines 15-42.  It reads the instance and changes
    nothing of it. *)
Definition compute_forward (self : TransducerBrain) (batch : Batch) (stage : Stage)
    : Predictions :=
  let batch := Batch_to batch (device self) in
  let '(wavs, lens) := batch_sig batch in
  let feats := compute_features (modules self) wavs in
  let feats := mean_var_norm (modules self) feats lens in
  (* Transcription network: input-output dependency *)
  let TN_output := enc (modules self) feats in
  let TN_output := enc_lin (modules self) TN_output in
  (* Prediction network: output-output dependency *)
  let '(targets, target_lens) := batch_phn_encoded_bos batch in
  let PN_output := emb (modules self) targets in
  let '(PN_output, _) := dec (modules self) PN_output in
  let PN_output := dec_lin (modules self) PN_output in
  (* Joint the networks *)
  let joint := Tjoint (modules self) (unsqueeze TN_output 2) (unsqueeze PN_output 1) in
  let outputs := output (modules self) joint in
  let outputs := log_softmax (hparams self) outputs in
  if decide (stage = TRAIN) then Pred2 outputs lens
  else
    let '(hyps, scores, _, _) := searcher (hparams self) TN_output in
    Pred3 outputs lens hyps.

(** [predictions, lens = predictions] *)
Definition unpack2 (predictions : Predictions) : M (Tensor * Tensor) :=
  match predictions with
  | Pred2 outputs lens => mret (outputs, lens)
  | Pred3 _ _ _ => M_raise (ValueError "too many values to unpack (expected 2)")
  end.

(** [predictions, lens, seq = predictions] *)
Definition unpack3 (predictions : Predictions) : M (Tensor * Tensor * list (list Z)) :=
  match predictions with
  | Pred3 outputs lens seq => mret (outputs, lens, seq)
  | Pred2 _ _ => M_raise (ValueError "not enough values to unpack (expected 3, got 2)")
  end.

(** [self], read *)
Definition get_self : M TransducerBrain := fun w => (inr (brain w), w).

(** [compute_objectives], lines 44-60. *)
Definition compute_objectives (predictions : Predictions) (batch : Batch) (stage : Stage)
    : M Tensor :=
  let '(phns, phn_lens) := batch_phn_encoded batch in
  pl ← (if decide (stage = TRAIN) then unpack2 predictions
        else
          '(predictions, lens, seq) ← unpack3 predictions;
          stats ← get_per_metrics;
          set_per_metrics (ErrorRateStats_append stats (batch_id batch) seq phns phn_lens);;
          mret (predictions, lens)) : M (Tensor * Tensor);
  let '(predictions, lens) := pl in
  self ← get_self;
  let loss := compute_cost (hparams self) predictions
                (long (tensor_to phns (device self))) lens
                (tensor_to phn_lens (device self)) in
  mret loss.

(** [on_stage_start], lines 62-65. *)
Definition on_stage_start (stage : Stage) (epoch : option Z) : M unit :=
  when (bool_decide (stage ≠ TRAIN)) (set_per_metrics (per_stats ())).

(** [on_stage_end], lines 67-76. *)
Definition on_stage_end (stage : Stage) (stage_loss : float) (epoch : option Z) : M unit :=
  when (bool_decide (stage = TRAIN)) (set_train_loss stage_loss);;
  match epoch with
  | Some n =>
      when (bool_decide (stage = VALID))
        (print ("Epoch " +:+ fmt_d n +:+ " complete");;
         x ← get_train_loss;
         print ("Train loss: " +:+ fmt_2f x))
  | None => mret tt
  end;;
  when (bool_decide (stage ≠ TRAIN))
    (print (Stage_str stage +:+ " " +:+ "loss: " +:+ fmt_2f stage_loss);;
     stats ← get_per_metrics;
     print (Stage_str stage +:+ " " +:+ "PER: " +:+ fmt_2f (summarize stats "error_rate"))).

(** One call of a hook by the training loop. *)
Inductive HookCall : Type :=
| CallStageStart (stage : Stage) (epoch : option Z)
| CallObjectives (predictions : Predictions) (batch : Batch) (stage : Stage)
| CallStageEnd (stage : Stage) (stage_loss : float) (epoch : option Z).

Definition call (c : HookCall) : M unit :=
  match c with
  | CallStageStart stage epoch => on_stage_start stage epoch
  | CallObjectives predictions batch stage =>
      compute_objectives predictions batch stage;; mret tt
  | CallStageEnd stage stage_loss epoch => on_stage_end stage stage_loss epoch
  end.

(** A run of hook calls, one after the other; a raise ends it. *)
Fixpoint calls (cs : list HookCall) : M unit :=
  match cs with
  | [] => mret tt
  | c :: cs' => call c;; calls cs'
  end.

(** Whether a run of calls has a TRAIN-stage end among them. *)
Definition is_train_end (c : HookCall) : bool :=
  match c with
  | CallStageEnd TRAIN _ _ => true
  | _ => false
  end.

(** ** [main] *)

(** What [main] finds around it: whether [numba] can be imported, the
    directory of the script, path resolution, the configuration loader, the
    manifests, the device of a new instance, and the two loops of the base
    class.  The datasets reach the label encoder through their pipelines;
    the loops are handed the encoder with each dataset. *)
Record Env : Type := {
  numba_installed : bool;
  experiment_dir : string;
  resolve : string -> string;
  load_extended_yaml : string -> Result HParams;
  load_data_json : FileSystem;
  default_device : string;
  fit : list Z -> CTCTextEncoder * Dataset -> CTCTextEncoder * Dataset ->
        list (string * Z) -> M unit;
  evaluate : CTCTextEncoder * Dataset -> M unit
}.

(** [range(n)] *)
Definition range (n : Z) : list Z := Z.of_nat <$> seq 0 (Z.to_nat n).

(** [assert trasducer_brain.train_loss < 1.0], line 164. *)
Definition assert_overfits : M unit :=
  x ← get_train_loss;
  if PrimFloat.ltb x 1%float then mret tt else M_raise AssertionError.

(** Lines 153-164 of [main]: the loops and the final check, on the new
    instance. *)
Definition train_and_check (env : Env) (hparams : HParams)
    (train_data valid_data : Dataset) (label_encoder : CTCTextEncoder) : M unit :=
  (* Training/validation loop *)
  fit env (range (N_epochs hparams)) (label_encoder, train_data)
    (label_encoder, valid_data) (dataloader_options hparams);;
  (* Evaluation is run separately (now just evaluating on valid data) *)
  evaluate env (label_encoder, valid_data);;
  (* Check that model overfits for integration test *)
  assert_overfits.

(** The instance [main] builds and the world the loops start in. *)
Definition main_world (env : Env) (hparams : HParams) : World :=
  {| brain := TransducerBrain_new (hp_modules hparams) (hp_opt_class hparams) hparams
                (default_device env);
     stdout := [] |}.

(** [main], lines 134-164: how the call ends. *)
Definition main (env : Env) : Result unit :=
  if negb (numba_installed env) then raise (Skipped "numba")
  else
    let hparams_file := path_join (experiment_dir env) "hyperparams.yaml" in
    let data_folder := "../../../../samples/audio_samples/nn_training_samples" in
    let data_folder := resolve env (path_join (experiment_dir env) data_folder) in
    (* Load model hyper parameters *)
    hparams ← load_extended_yaml env hparams_file;
    (* Dataset creation *)
    '(train_data, valid_data, label_encoder) ←
      data_prep (load_data_json env) data_folder hparams;
    (* Trainer initialization, loops, check *)
    (train_and_check env hparams train_data valid_data label_encoder
       (main_world env hparams)).1.

End Definitions.

(** ** A small instance to run the definitions on *)

(** Tensors are lists of integers; moving and casting leave them as they
    are; an audio file reads as the length of its path. *)
Definition demo_toolkit : Toolkit :=
  {| Tensor := list Z;
     unsqueeze := fun x _ => x;
     tensor_to := fun x _ => x;
     long := fun x => x;
     read_audio := fun path => inr [Z.of_nat (String.length path)];
     summarize := fun stats _ => 0%float;
     blank_label_default := "<blank>";
     bos_label_default := "<bos>";
     eos_index_default := 1 |}.

Definition demo_tensor (l : list Z) : @Tensor demo_toolkit := l.

Definition demo_joint (x y : @Tensor demo_toolkit) : @Tensor demo_toolkit :=
  (x ++ y)%list.

Definition demo_modules : @Modules demo_toolkit :=
  {| compute_features := fun x => x;
     mean_var_norm := fun x _ => x;
     enc := fun x => x;
     enc_lin := fun x => x;
     emb := fun x => x;
     dec := fun x => (x, x);
     dec_lin := fun x => x;
     Tjoint := demo_joint;
     output := fun x => x |}.

Definition demo_hparams : @HParams demo_toolkit :=
  {| hp_modules := demo_modules;
     hp_opt_class := "SGD";
     log_softmax := fun x => x;
     searcher := fun x => ([x], x, x, x);
     compute_cost := fun p _ _ _ => p;
     blank_index := 0;
     bos_index := 1;
     N_epochs := 1;
     dataloader_options := [("batch_size", 1)] |}.

(** Two manifests under the folder [/d]: two utterances to train on, one to
    validate on. *)
Definition demo_files : @FileSystem :=
  fun path _ =>
    if decide (path = "/d/train.json") then
      inr [ {| utt_id := "utt1"; wav := "/d/utt1.wav"; phn := " sil a  b sil " |};
            {| utt_id := "utt2"; wav := "/d/utt2.wav"; phn := "b c" |} ]
    else if decide (path = "/d/dev.json") then
      inr [ {| utt_id := "utt3"; wav := "/d/utt3.wav"; phn := "c d" |} ]
    else inl (OSError path).

Definition demo_batch : @Batch demo_toolkit :=
  {| batch_id := ["utt3"];
     batch_sig := (demo_tensor [8], demo_tensor [1]);
     batch_phn_encoded := (demo_tensor [5; 6], demo_tensor [1]);
     batch_phn_encoded_bos := (demo_tensor [1; 5; 6], demo_tensor [1]) |}.

(** A new instance, before any hook has run. *)
Definition demo_world : @World demo_toolkit :=
  {| brain := TransducerBrain_new demo_modules "SGD" demo_hparams "cpu"; stdout := [] |}.

(** An instance in the middle of a run: a training loss is remembered and
    an accumulator is in place. *)
Definition demo_world_mid : @World demo_toolkit :=
  {| brain := {| modules := demo_modules; hparams := demo_hparams; device := "cpu";
                 train_loss := Some 0.5%float; per_metrics := Some [] |};
     stdout := [] |}.

(** A training loop to run the hooks in: a stage starts, the loss of each
    batch is computed on the predictions for it, the stage ends with an
    average loss handed in from outside. *)
Definition demo_stage (stage : Stage) (epoch : option Z)
    (batches : list (@Batch demo_toolkit)) (stage_loss : float) : @M demo_toolkit unit :=
  on_stage_start stage epoch;;
  foldr (fun batch rest =>
           self ← get_self;
           compute_objectives (compute_forward self batch stage) batch stage;;
           rest) (mret tt) batches;;
  on_stage_end stage stage_loss epoch.

Definition demo_fit (epochs : list Z) (train valid : CTCTextEncoder * @Dataset demo_toolkit)
    (options : list (string * Z)) : @M demo_toolkit unit :=
  foldr (fun epoch rest =>
           demo_stage TRAIN (Some epoch) [demo_batch] 0.5%float;;
           demo_stage VALID (Some epoch) [demo_batch] 1.5%float;;
           rest) (mret tt) epochs.

Definition demo_evaluate (test : CTCTextEncoder * @Dataset demo_toolkit)
    : @M demo_toolkit unit :=
  demo_stage TEST None [demo_batch] 1.5%float.

Definition demo_env : @Env demo_toolkit :=
  {| numba_installed := true;
     experiment_dir := "/x";
     resolve := fun _ => "/d";
     load_extended_yaml := fun _ => inr demo_hparams;
     load_data_json := demo_files;
     default_device := "cpu";
     fit := demo_fit;
     evaluate := demo_evaluate |}.

(** The hook calls of one epoch up to the start of validation. *)
Definition demo_calls : list (@HookCall demo_toolkit) :=
  [CallStageStart TRAIN (Some 0); CallStageEnd TRAIN 0.5%float (Some 0);
   CallStageStart VALID (Some 0)].

(** ** The hooks of [TransducerBrain] *)

Section Hooks.
Context `{TK : Toolkit}.

(** The output of the transcription network for a batch: lines 17-24 of
    [compute_forward]. *)
Definition transcription (self : TransducerBrain) (batch : Batch) : Tensor :=
  let batch := Batch_to batch (device self) in
  enc_lin (modules self)
    (enc (modules self)
       (mean_var_norm (modules self)
          (compute_features (modules self) (batch_sig batch).1) (batch_sig batch).2)).

(** Two worlds that differ at most in the error-rate accumulator. *)
Definition same_but_per_metrics (w w' : World) : Prop :=
  modules (brain w') = modules (brain w) ∧
  hparams (brain w') = hparams (brain w) ∧
  device (brain w') = device (brain w) ∧
  train_loss (brain w') = train_loss (brain w) ∧
  stdout w' = stdout w.

(** Two worlds that differ at most in the remembered training loss. *)
Definition same_but_train_loss (w w' : World) : Prop :=
  modules (brain w') = modules (brain w) ∧
  hparams (brain w') = hparams (brain w) ∧
  device (brain w') = device (brain w) ∧
  per_metrics (brain w') = per_metrics (brain w) ∧
  stdout w' = stdout w.

(** The loss [compute_objectives] returns for a pair of predictions. *)
Definition objective (self : TransducerBrain) (outputs lens : Tensor) (batch : Batch) : Tensor :=
  compute_cost (hparams self) outputs
    (long (tensor_to (batch_phn_encoded batch).1 (device self))) lens
    (tensor_to (batch_phn_encoded batch).2 (device self)).

(** The shape of what [compute_forward] returns, by stage. *)
Lemma compute_forward_shape (self : TransducerBrain) (batch : Batch) (stage : Stage) :
  if decide (stage = TRAIN)
  then ∃ outputs lens, compute_forward self batch stage = Pred2 outputs lens
  else ∃ outputs lens hyps, compute_forward self batch stage = Pred3 outputs lens hyps.
Proof.
  unfold compute_forward.
  destruct (batch_sig (Batch_to batch (device self))) as [wavs lens].
  destruct (batch_phn_encoded_bos (Batch_to batch (device self))) as [targets tlens].
  destruct (dec (modules self) (emb (modules self) targets)) as [pn st].
  destruct (decide (stage = TRAIN)); [by eexists _, _|].
  destruct (searcher _ _) as [[[hyps scores] a] b]. by eexists _, _, _.
Qed.

(** C3: in stage TRAIN [compute_forward] returns the pair of the
    log-probabilities and the lengths of the signals; in every other stage it
    returns the same two with, third, the hypotheses the searcher gives on
    the output of the transcription network. *)
Theorem compute_forward_returns (self : TransducerBrain) (batch : Batch) (stage : Stage) :
  ∃ joint_outputs : Tensor,
    let outputs := log_softmax (hparams self) joint_outputs in
    let lens := (batch_sig (Batch_to batch (device self))).2 in
    compute_forward self batch stage =
      match stage with
      | TRAIN => Pred2 outputs lens
      | VALID | TEST =>
          Pred3 outputs lens (searcher (hparams self) (transcription self batch)).1.1.1
      end.
Proof.
  unfold compute_forward, transcription.
  destruct (batch_sig (Batch_to batch (device self))) as [wavs lens] eqn:Hsig.
  destruct (batch_phn_encoded_bos (Batch_to batch (device self))) as [targets tlens].
  destruct (dec (modules self) (emb (modules self) targets)) as [pn st].
  eexists. cbn zeta.
  destruct stage; cbn [decide Stage_eq_dec]; try reflexivity;
    destruct (searcher _ _) as [[[hyps scores] a] b]; reflexivity.
Qed.

(** Runs a hook on a world: unfolds the sequencing of [M]. *)
Ltac run_hook :=
  unfold when, get_self, get_train_loss, get_per_metrics, set_train_loss,
    set_per_metrics, print, unpack2, unpack3, M_raise;
  unfold mbind, mret, M_bind, M_ret;
  repeat first [rewrite bool_decide_true by done | rewrite bool_decide_false by done];
  cbn.

(** C8: [on_stage_start] returns; in stage TRAIN it leaves the world as it
    was; in every other stage the accumulator is a new one, which holds
    nothing, and the rest of the world is as it was. *)
Theorem on_stage_start_installs (stage : Stage) (epoch : option Z) (w : World) :
  let r := on_stage_start stage epoch w in
  r.1 = inr tt ∧
  match stage with
  | TRAIN => r.2 = w
  | VALID | TEST => per_metrics (brain r.2) = Some [] ∧ same_but_per_metrics w r.2
  end.
Proof.
  destruct stage; cbn; repeat split; reflexivity.
Qed.

Lemma compute_objectives_train (predictions : Predictions) (batch : Batch) (w : World) :
  compute_objectives predictions batch TRAIN w =
    match predictions with
    | Pred2 outputs lens => (inr (objective (brain w) outputs lens batch), w)
    | Pred3 _ _ _ => (inl (ValueError "too many values to unpack (expected 2)"), w)
    end.
Proof.
  unfold compute_objectives, objective.
  destruct (batch_phn_encoded batch) as [phns phn_lens].
  destruct predictions; reflexivity.
Qed.

Lemma compute_objectives_eval (predictions : Predictions) (batch : Batch)
    (stage : Stage) (w : World) :
  stage ≠ TRAIN →
  compute_objectives predictions batch stage w =
    match predictions with
    | Pred2 _ _ =>
        (inl (ValueError "not enough values to unpack (expected 3, got 2)"), w)
    | Pred3 outputs lens seq =>
        match per_metrics (brain w) with
        | None => (inl (AttributeError "per_metrics"), w)
        | Some stats =>
            let entry := (batch_id batch, seq, (batch_phn_encoded batch).1,
                          (batch_phn_encoded batch).2) in
            (inr (objective (brain w) outputs lens batch),
             (set_per_metrics (stats ++ [entry]) w).2)
        end
    end.
Proof.
  intros Hstage.
  unfold compute_objectives, objective.
  destruct (batch_phn_encoded batch) as [phns phn_lens].
  destruct (decide (stage = TRAIN)) as [->|_]; [done|].
  destruct predictions as [outputs lens|outputs lens seq]; [reflexivity|].
  run_hook. destruct (per_metrics (brain w)) as [stats|]; reflexivity.
Qed.

(** [compute_objectives] leaves everything but the accumulator as it was,
    whether it returns or raises. *)
Lemma compute_objectives_same (predictions : Predictions) (batch : Batch)
    (stage : Stage) (w : World) :
  same_but_per_metrics w (compute_objectives predictions batch stage w).2.
Proof.
  destruct (decide (stage = TRAIN)) as [->|Hstage].
  - rewrite compute_objectives_train. destruct predictions; repeat split; reflexivity.
  - rewrite (compute_objectives_eval _ _ _ _ Hstage).
    destruct predictions as [|outputs lens seq]; [repeat split; reflexivity|].
    destruct (per_metrics (brain w)); repeat split; reflexivity.
Qed.

(** C10: whatever the stage, [compute_objectives] leaves everything but the
    accumulator as it was.  In stage TRAIN it leaves the whole world as it
    was and, on the predictions [compute_forward] gave for the batch, returns
    the loss.  In any other stage, with an accumulator in place and on the
    predictions [compute_forward] gave for the batch, it returns the loss,
    and the accumulator is the former one with one more entry at its end,
    the one of this batch. *)
Theorem compute_objectives_frame (predictions : Predictions) (batch : Batch)
    (stage : Stage) (w : World) :
  let r := compute_objectives predictions batch stage w in
  same_but_per_metrics w r.2 ∧
  (stage = TRAIN →
     r.2 = w ∧
     (predictions = compute_forward (brain w) batch stage → ∃ loss, r.1 = inr loss)) ∧
  (stage ≠ TRAIN →
     ∀ stats, per_metrics (brain w) = Some stats →
       predictions = compute_forward (brain w) batch stage →
       ∃ loss entry,
         r.1 = inr loss ∧
         per_metrics (brain r.2) = Some (stats ++ [entry]) ∧
         entry.1.1.1 = batch_id batch ∧
         length (stats ++ [entry]) = S (length stats)).
Proof.
  cbn zeta. split; [apply compute_objectives_same|].
  pose proof (compute_forward_shape (brain w) batch stage) as Hshape.
  destruct (decide (stage = TRAIN)) as [->|Hstage].
  - rewrite compute_objectives_train. split; [|done].
    intros _. split; [destruct predictions; reflexivity|].
    intros ->. destruct Hshape as (outputs & lens & ->). cbn. eauto.
  - rewrite (compute_objectives_eval _ _ _ _ Hstage). split; [done|].
    intros _ stats Hstats ->. destruct Hshape as (outputs & lens & hyps & ->).
    rewrite Hstats. cbn.
    eexists _, _. split; [reflexivity|]. split; [reflexivity|]. split; [reflexivity|].
    rewrite length_app. cbn. lia.
Qed.

(** The two lines every stage but TRAIN prints at its end. *)
Definition stage_lines (stage : Stage) (stage_loss : float) (stats : ErrorRateStats)
    : list string :=
  [Stage_str stage +:+ " loss: " +:+ fmt_2f stage_loss;
   Stage_str stage +:+ " PER: " +:+ fmt_2f (summarize stats "error_rate")].

(** The two lines a VALID stage with an epoch number prints first. *)
Definition epoch_lines (n : Z) (x : float) : list string :=
  ["Epoch " +:+ fmt_d n +:+ " complete"; "Train loss: " +:+ fmt_2f x].

Lemma on_stage_end_train (stage_loss : float) (epoch : option Z) (w : World) :
  on_stage_end TRAIN stage_loss epoch w = set_train_loss stage_loss w.
Proof.
  unfold on_stage_end. destruct epoch; reflexivity.
Qed.

Lemma on_stage_end_valid_epoch (stage_loss : float) (n : Z) (w : World) :
  on_stage_end VALID stage_loss (Some n) w =
    let w1 := {| brain := brain w;
                 stdout := stdout w ++ ["Epoch " +:+ fmt_d n +:+ " complete"] |} in
    match train_loss (brain w) with
    | None => (inl (AttributeError "train_loss"), w1)
    | Some x =>
        match per_metrics (brain w) with
        | None =>
            (inl (AttributeError "per_metrics"),
             {| brain := brain w;
                stdout := (stdout w1 ++ ["Train loss: " +:+ fmt_2f x]) ++
                          ["Stage.VALID loss: " +:+ fmt_2f stage_loss] |})
        | Some stats =>
            (inr tt,
             {| brain := brain w;
                stdout := ((stdout w1 ++ ["Train loss: " +:+ fmt_2f x]) ++
                           ["Stage.VALID loss: " +:+ fmt_2f stage_loss]) ++
                          ["Stage.VALID PER: " +:+ fmt_2f (summarize stats "error_rate")] |})
        end
    end.
Proof.
  unfold on_stage_end. run_hook.
  destruct (train_loss (brain w)); cbn; [|reflexivity].
  destruct (per_metrics (brain w)); reflexivity.
Qed.

Lemma on_stage_end_plain (stage : Stage) (stage_loss : float) (epoch : option Z) (w : World) :
  stage ≠ TRAIN →
  stage = TEST ∨ epoch = None →
  on_stage_end stage stage_loss epoch w =
    let w1 := {| brain := brain w;
                 stdout := stdout w ++ [Stage_str stage +:+ " loss: " +:+ fmt_2f stage_loss] |} in
    match per_metrics (brain w) with
    | None => (inl (AttributeError "per_metrics"), w1)
    | Some stats =>
        (inr tt,
         {| brain := brain w;
            stdout := stdout w1 ++
              [Stage_str stage +:+ " PER: " +:+ fmt_2f (summarize stats "error_rate")] |})
    end.
Proof.
  intros Hstage Hplain. unfold on_stage_end.
  destruct stage; [done| |].
  - destruct Hplain as [Hs| ->]; [done|]. run_hook.
    destruct (per_metrics (brain w)); reflexivity.
  - destruct epoch; run_hook; destruct (per_metrics (brain w)); reflexivity.
Qed.

(** The epoch number [on_stage_end] announces: the one given, in stage
    VALID; none otherwise. *)
Definition announced_epoch (stage : Stage) (epoch : option Z) : option Z :=
  match stage with
  | VALID => epoch
  | TRAIN | TEST => None
  end.

(** C4, as amended: at the end of stage TRAIN [on_stage_end] stores the stage
    loss as the remembered training loss and prints nothing.  At the end of
    any other stage it leaves the instance as it was.  When the stage is
    VALID and an epoch number is given, it first prints the epoch number and
    then the remembered training loss; if no training loss is remembered, it
    raises the attribute error right after the epoch line.  For every stage
    but TRAIN it then prints the loss of the stage and then the accumulated
    error rate; if no accumulator is in place, it raises the attribute error
    right after the line of the stage loss.  Without an epoch number, or in
    stage TEST, neither an epoch number nor a training loss is printed. *)
Theorem on_stage_end_effects (stage : Stage) (stage_loss : float) (epoch : option Z)
    (w : World) :
  let r := on_stage_end stage stage_loss epoch w in
  match stage with
  | TRAIN =>
      r.1 = inr tt ∧ train_loss (brain r.2) = Some stage_loss ∧ same_but_train_loss w r.2
  | VALID | TEST =>
      let loss_line := Stage_str stage +:+ " loss: " +:+ fmt_2f stage_loss in
      brain r.2 = brain w ∧
      match announced_epoch stage epoch, train_loss (brain w), per_metrics (brain w) with
      | Some n, None, _ =>
          r.1 = inl (AttributeError "train_loss") ∧
          stdout r.2 = stdout w ++ ["Epoch " +:+ fmt_d n +:+ " complete"]
      | Some n, Some x, None =>
          r.1 = inl (AttributeError "per_metrics") ∧
          stdout r.2 = stdout w ++ epoch_lines n x ++ [loss_line]
      | Some n, Some x, Some stats =>
          r.1 = inr tt ∧
          stdout r.2 = stdout w ++ epoch_lines n x ++ stage_lines stage stage_loss stats
      | None, _, None =>
          r.1 = inl (AttributeError "per_metrics") ∧
          stdout r.2 = stdout w ++ [loss_line]
      | None, _, Some stats =>
          r.1 = inr tt ∧
          stdout r.2 = stdout w ++ stage_lines stage stage_loss stats
      end
  end.
Proof.
  cbn zeta. destruct stage.
  - rewrite on_stage_end_train. cbn. repeat split; reflexivity.
  - destruct epoch as [n|]; cbn [announced_epoch].
    + rewrite on_stage_end_valid_epoch. cbn zeta.
      destruct (train_loss (brain w)) as [x|]; [|by repeat split].
      destruct (per_metrics (brain w)) as [stats|]; cbn [fst snd brain stdout];
        (split; [reflexivity|]); (split; [reflexivity|]);
        unfold epoch_lines, stage_lines; rewrite <- !app_assoc; reflexivity.
    + rewrite on_stage_end_plain by (done || auto). cbn zeta.
      destruct (train_loss (brain w)), (per_metrics (brain w));
        cbn [fst snd brain stdout]; (split; [reflexivity|]); (split; [reflexivity|]);
        unfold stage_lines; rewrite <- ?app_assoc; reflexivity.
  - cbn [announced_epoch]. rewrite on_stage_end_plain by (done || auto). cbn zeta.
    destruct (train_loss (brain w)), (per_metrics (brain w));
      cbn [fst snd brain stdout]; (split; [reflexivity|]); (split; [reflexivity|]);
      unfold stage_lines; rewrite <- ?app_assoc; reflexivity.
Qed.

Lemma on_stage_end_brain (stage : Stage) (stage_loss : float) (epoch : option Z) (w : World) :
  stage ≠ TRAIN → brain (on_stage_end stage stage_loss epoch w).2 = brain w.
Proof.
  intros Hstage.
  destruct (decide (stage = VALID ∧ is_Some epoch)) as [[-> [n ->]]|Hplain].
  - rewrite on_stage_end_valid_epoch. cbn zeta.
    destruct (train_loss (brain w)); [|reflexivity].
    destruct (per_metrics (brain w)); reflexivity.
  - rewrite on_stage_end_plain; [|done|].
    + cbn zeta. destruct (per_metrics (brain w)); reflexivity.
    + destruct stage; [done| |by left]. destruct epoch; [|by right].
      exfalso. apply Hplain. split; [done|by eexists].
Qed.

(** What one hook call does to the remembered training loss, whether it
    returns or raises. *)
Lemma call_train_loss (c : HookCall) (w : World) :
  train_loss (brain (call c w).2) =
    match c with
    | CallStageEnd TRAIN stage_loss _ => Some stage_loss
    | _ => train_loss (brain w)
    end.
Proof.
  destruct c as [stage epoch|predictions batch stage|stage stage_loss epoch]; cbn [call].
  - destruct stage; reflexivity.
  - pose proof (compute_objectives_same predictions batch stage w) as Hframe.
    unfold mbind, M_bind.
    destruct (compute_objectives predictions batch stage w) as [[e|loss] w'];
      cbn in *; apply Hframe.
  - destruct stage.
    + rewrite on_stage_end_train. reflexivity.
    + by rewrite on_stage_end_brain.
    + by rewrite on_stage_end_brain.
Qed.

(** The unfolding of a run of calls. *)
Lemma calls_cons (c : HookCall) (cs : list HookCall) (w : World) :
  calls (c :: cs) w =
    match (call c w).1 with
    | inl e => (inl e, (call c w).2)
    | inr _ => calls cs (call c w).2
    end.
Proof.
  cbn [calls]. unfold mbind, M_bind. destruct (call c w) as [[e|[]] w']; reflexivity.
Qed.

(** Over a run of calls that returns: without a TRAIN-stage end the
    remembered training loss is as before; with one, a loss is remembered. *)
Lemma calls_train_loss (cs : list HookCall) (w w' : World) :
  calls cs w = (inr tt, w') →
  if existsb is_train_end cs then is_Some (train_loss (brain w'))
  else train_loss (brain w') = train_loss (brain w).
Proof.
  revert w. induction cs as [|c cs IH]; intros w Hrun.
  - cbn in *. by inversion Hrun.
  - rewrite calls_cons in Hrun.
    destruct (call c w).1 as [e|u] eqn:Hc; [done|].
    specialize (IH _ Hrun). pose proof (call_train_loss c w) as Hstep.
    cbn [existsb]. destruct (existsb is_train_end cs).
    + by rewrite orb_true_r.
    + rewrite orb_false_r. rewrite IH, Hstep.
      destruct c as [| |[] ? ?]; cbn; try reflexivity. by eexists.
Qed.

(** C9: take a new instance, on which no training loss is remembered, and
    any run of hook calls on it that returns.  If no end of a TRAIN stage is
    among the calls, the read of the remembered training loss raises the
    attribute error, and so does [on_stage_end] called next with stage VALID
    and an epoch number.  If one is among them, the read returns, and
    [on_stage_end] does not raise on it and prints the training loss. *)
Theorem train_loss_read (cs : list HookCall) (w0 w : World) (stage_loss : float) (n : Z) :
  train_loss (brain w0) = None →
  calls cs w0 = (inr tt, w) →
  let r := on_stage_end VALID stage_loss (Some n) w in
  if existsb is_train_end cs then
    ∃ x, get_train_loss w = (inr x, w) ∧
         r.1 ≠ inl (AttributeError "train_loss") ∧
         ("Train loss: " +:+ fmt_2f x) ∈ stdout r.2
  else
    get_train_loss w = (inl (AttributeError "train_loss"), w) ∧
    r.1 = inl (AttributeError "train_loss").
Proof.
  intros Hnew Hrun. cbn zeta.
  pose proof (calls_train_loss cs w0 w Hrun) as Hloss.
  rewrite on_stage_end_valid_epoch. cbn zeta. unfold get_train_loss.
  destruct (existsb is_train_end cs).
  - destruct Hloss as [x Hx]. exists x. rewrite Hx.
    split; [reflexivity|].
    destruct (per_metrics (brain w)); cbn [fst snd stdout]; (split; [done|]);
      rewrite !elem_of_app, !list_elem_of_singleton; auto.
  - rewrite Hloss, Hnew. done.
Qed.

(** The check at the end of [main], on a world. *)
Lemma assert_overfits_spec (w : World) :
  assert_overfits w =
    match train_loss (brain w) with
    | None => (inl (AttributeError "train_loss"), w)
    | Some x => if PrimFloat.ltb x 1%float then (inr tt, w) else (inl AssertionError, w)
    end.
Proof.
  unfold assert_overfits. run_hook.
  destruct (train_loss (brain w)) as [x|]; [|reflexivity].
  cbn. destruct (PrimFloat.ltb x 1); reflexivity.
Qed.

(** C7: when [numba] is there, the configuration and the data are loaded,
    and training and evaluation return, [main] raises the assertion error if
    and only if the training loss the instance remembers at the end is not
    below 1.0, and returns if and only if it is. *)
Theorem main_assertion (env : Env) (hparams : HParams) (train_data valid_data : Dataset)
    (label_encoder : CTCTextEncoder) (w1 w2 : World) (x : float) :
  numba_installed env = true →
  load_extended_yaml env (path_join (experiment_dir env) "hyperparams.yaml") = inr hparams →
  data_prep (load_data_json env)
    (resolve env (path_join (experiment_dir env)
                    "../../../../samples/audio_samples/nn_training_samples"))
    hparams = inr (train_data, valid_data, label_encoder) →
  fit env (range (N_epochs hparams)) (label_encoder, train_data)
    (label_encoder, valid_data) (dataloader_options hparams)
    (main_world env hparams) = (inr tt, w1) →
  evaluate env (label_encoder, valid_data) w1 = (inr tt, w2) →
  train_loss (brain w2) = Some x →
  (main env = inl AssertionError ↔ PrimFloat.ltb x 1%float = false) ∧
  (main env = inr tt ↔ PrimFloat.ltb x 1%float = true).
Proof.
  intros Hnumba Hyaml Hdata Hfit Heval Hloss.
  assert (Hmain : main env =
            if PrimFloat.ltb x 1%float then inr tt else inl AssertionError).
  { unfold main. rewrite Hnumba. cbn [negb]. cbn zeta.
    rewrite Hyaml. cbn [mbind Result_bind]. rewrite Hdata. cbn [mbind Result_bind].
    unfold train_and_check. unfold mbind at 1 2, M_bind at 1 2.
    rewrite Hfit, Heval, assert_overfits_spec, Hloss.
    destruct (PrimFloat.ltb x 1); reflexivity. }
  rewrite Hmain. destruct (PrimFloat.ltb x 1); split; split; congruence.
Qed.

End Hooks.

(** ** [data_prep] and the label encoder *)

Section DataPrep.
Context `{TK : Toolkit}.

(** The encoder [data_prep] has before it scans the datasets: new, with the
    blank marker and the two sequence markers reserved. *)
Definition reserved_encoder (hparams : HParams) : CTCTextEncoder :=
  insert_bos_eos bos_label_default "<bos>" (bos_index hparams) eos_index_default
    (insert_blank blank_label_default (blank_index hparams) CTCTextEncoder_new).

(** The labels of the reserved markers. *)
Definition reserved_labels : gset string :=
  {[ blank_label_default; bos_label_default; "<bos>" ]}.

(** A dataset as [data_prep] returns it. *)
Definition prepared (entries : list Utterance) : Dataset :=
  {| data := entries;
     pipeline := [audio_pipeline; text_pipeline];
     output_keys := ["id"; "sig"; "phn_encoded"; "phn_encoded_bos"] |}.

(** The encoder [data_prep] returns for two lists of records. *)
Definition fitted_encoder (hparams : HParams) (train valid : list Utterance) : CTCTextEncoder :=
  update_from_iterable
    (update_from_iterable (reserved_encoder hparams) (phoneme_symbols train))
    (phoneme_symbols valid).

Lemma ensure_label_dom (e : CTCTextEncoder) (label : string) :
  dom (lab2ind (ensure_label e label)) = dom (lab2ind e) ∪ {[label]}.
Proof.
  unfold ensure_label. destruct (lab2ind e !! label) as [i|] eqn:Hl.
  - apply (elem_of_dom_2 (D := gset string)) in Hl. set_solver.
  - cbn. rewrite dom_insert_L. set_solver.
Qed.

Lemma ensure_label_lookup (e : CTCTextEncoder) (label k : string) (i : Z) :
  lab2ind e !! k = Some i → lab2ind (ensure_label e label) !! k = Some i.
Proof.
  intros Hk. unfold ensure_label. destruct (lab2ind e !! label) as [j|] eqn:Hl; [done|].
  cbn. rewrite lookup_insert_ne; [done|]. intros ->. congruence.
Qed.

Lemma ensure_label_bos (e : CTCTextEncoder) (label : string) :
  bos_label (ensure_label e label) = bos_label e.
Proof.
  unfold ensure_label. destruct (lab2ind e !! label); reflexivity.
Qed.

Lemma update_from_iterable_dom (labels : list string) (e : CTCTextEncoder) :
  dom (lab2ind (update_from_iterable e labels)) = dom (lab2ind e) ∪ list_to_set labels.
Proof.
  unfold update_from_iterable. revert e.
  induction labels as [|l labels IH]; intros e; cbn.
  - set_solver.
  - rewrite IH, ensure_label_dom. set_solver.
Qed.

Lemma update_from_iterable_lookup (labels : list string) (e : CTCTextEncoder)
    (k : string) (i : Z) :
  lab2ind e !! k = Some i → lab2ind (update_from_iterable e labels) !! k = Some i.
Proof.
  unfold update_from_iterable. revert e.
  induction labels as [|l labels IH]; intros e Hk; cbn; [done|].
  apply IH. by apply ensure_label_lookup.
Qed.

Lemma update_from_iterable_bos (labels : list string) (e : CTCTextEncoder) :
  bos_label (update_from_iterable e labels) = bos_label e.
Proof.
  unfold update_from_iterable. revert e.
  induction labels as [|l labels IH]; intros e; cbn; [done|].
  by rewrite IH, ensure_label_bos.
Qed.

Lemma update_from_iterable_app (l1 l2 : list string) (e : CTCTextEncoder) :
  update_from_iterable e (l1 ++ l2) = update_from_iterable (update_from_iterable e l1) l2.
Proof. unfold update_from_iterable. apply foldl_app. Qed.

Lemma reserved_encoder_dom (hparams : HParams) :
  dom (lab2ind (reserved_encoder hparams)) = reserved_labels.
Proof.
  unfold reserved_encoder, reserved_labels, insert_bos_eos, insert_blank, insert_label.
  destruct (decide (bos_label_default = "<bos>")) as [Heq|Hne]; cbn;
    rewrite ?dom_insert_L, dom_empty_L; set_solver.
Qed.

Lemma reserved_encoder_bos (hparams : HParams) :
  bos_label (reserved_encoder hparams) = Some bos_label_default ∧
  lab2ind (reserved_encoder hparams) !! bos_label_default = Some (bos_index hparams).
Proof.
  unfold reserved_encoder, insert_bos_eos, insert_blank, insert_label.
  destruct (decide (bos_label_default = "<bos>")) as [Heq|Hne]; cbn.
  - split; [done|]. by rewrite lookup_insert_eq.
  - split; [done|]. rewrite lookup_insert_ne by done. by rewrite lookup_insert_eq.
Qed.

Lemma fitted_encoder_dom (hparams : HParams) (train valid : list Utterance) :
  dom (lab2ind (fitted_encoder hparams train valid)) =
    reserved_labels ∪ list_to_set (phoneme_symbols train ++ phoneme_symbols valid).
Proof.
  unfold fitted_encoder.
  rewrite !update_from_iterable_dom, reserved_encoder_dom, list_to_set_app_L. set_solver.
Qed.

Lemma fitted_encoder_size (hparams : HParams) (train valid : list Utterance) :
  vocab_size (fitted_encoder hparams train valid) =
    size (reserved_labels ∪
          list_to_set (C := gset string) (phoneme_symbols train ++ phoneme_symbols valid)).
Proof.
  unfold vocab_size. by rewrite <- (fitted_encoder_dom hparams), size_dom.
Qed.

Lemma reserved_labels_size : (size reserved_labels ≤ 3)%nat.
Proof.
  unfold reserved_labels.
  rewrite !size_union_alt, !size_singleton.
  assert (H1 : (size (({[bos_label_default]} : gset string) ∖ {[blank_label_default]}) ≤ 1)%nat).
  { rewrite <- (size_singleton (C := gset string) bos_label_default).
    apply subseteq_size. set_solver. }
  assert (H2 : (size (({["<bos>"]} : gset string) ∖
                      ({[blank_label_default]} ∪ {[bos_label_default]})) ≤ 1)%nat).
  { rewrite <- (size_singleton (C := gset string) "<bos>").
    apply subseteq_size. set_solver. }
  lia.
Qed.

Lemma fitted_encoder_bos (hparams : HParams) (train valid : list Utterance) :
  bos_label (fitted_encoder hparams train valid) = Some bos_label_default ∧
  lab2ind (fitted_encoder hparams train valid) !! bos_label_default =
    Some (bos_index hparams).
Proof.
  unfold fitted_encoder. destruct (reserved_encoder_bos hparams) as [Hb Hi].
  split.
  - by rewrite !update_from_iterable_bos.
  - by do 2 apply update_from_iterable_lookup.
Qed.

Lemma compute_key_phn_list (e : CTCTextEncoder) (entries : list Utterance)
    (keys : list string) (u : Utterance) :
  compute_key e {| data := entries; pipeline := [audio_pipeline; text_pipeline];
                   output_keys := keys |} u "phn_list" =
    inr (VList (split (strip (phn u)))).
Proof. reflexivity. Qed.

Lemma compute_key_phn_encoded (e : CTCTextEncoder) (entries : list Utterance) (u : Utterance) :
  compute_key e (prepared entries) u "phn_encoded" =
    match encode_sequence_torch e (split (strip (phn u))) with
    | inl err => inl err
    | inr x => inr (VLong x)
    end.
Proof.
  change (compute_key e (prepared entries) u "phn_encoded") with
    (outs ← text_pipeline_run e (phn u) 2;
     match outs !! 1%nat with
     | Some v => mret v
     | None => raise (ValueError "pipeline yielded too few values")
     end).
  cbn [text_pipeline_run mbind Result_bind].
  destruct (encode_sequence_torch e (split (strip (phn u)))); reflexivity.
Qed.

Lemma compute_key_phn_encoded_bos (e : CTCTextEncoder) (entries : list Utterance)
    (u : Utterance) :
  compute_key e (prepared entries) u "phn_encoded_bos" =
    match encode_sequence_torch e (split (strip (phn u))) with
    | inl err => inl err
    | inr x =>
        match prepend_bos_index e x with
        | inl err => inl err
        | inr y => inr (VLong y)
        end
    end.
Proof.
  change (compute_key e (prepared entries) u "phn_encoded_bos") with
    (outs ← text_pipeline_run e (phn u) 3;
     match outs !! 2%nat with
     | Some v => mret v
     | None => raise (ValueError "pipeline yielded too few values")
     end).
  cbn [text_pipeline_run mbind Result_bind].
  destruct (encode_sequence_torch e (split (strip (phn u)))) as [|x]; [reflexivity|].
  cbn [mbind Result_bind].
  destruct (prepend_bos_index e x); reflexivity.
Qed.

Lemma compute_key_sig (e : CTCTextEncoder) (entries : list Utterance) (u : Utterance) :
  compute_key e (prepared entries) u "sig" =
    match read_audio (wav u) with
    | inl err => inl err
    | inr x => inr (VSig x)
    end.
Proof.
  change (compute_key e (prepared entries) u "sig") with
    (outs ← (sig ← read_audio (wav u); mret [VSig sig]);
     match outs !! 0%nat with
     | Some v => mret v
     | None => raise (ValueError "pipeline yielded too few values")
     end).
  cbn [mbind Result_bind]. destruct (read_audio (wav u)); reflexivity.
Qed.

(** The scan of a dataset that has the two pipelines adds the symbols of its
    records, in order, and does not raise. *)
Lemma update_from_didataset_scan (entries : list Utterance) (keys : list string)
    (e : CTCTextEncoder) :
  update_from_didataset e
    {| data := entries; pipeline := [audio_pipeline; text_pipeline]; output_keys := keys |}
    "phn_list" = inr (update_from_iterable e (phoneme_symbols entries)).
Proof.
  unfold update_from_didataset. cbn [data].
  generalize entries at 1 as all. intros all. revert e.
  induction entries as [|u entries IH]; intros e; [reflexivity|].
  cbn [foldR]. rewrite compute_key_phn_list. cbn [mbind Result_bind mret Result_ret].
  rewrite IH. unfold phoneme_symbols. cbn [fmap list_fmap concat].
  by rewrite update_from_iterable_app.
Qed.

(** [data_prep] raises what reading a manifest raises, and nothing else:
    given the two lists of records it returns the two prepared datasets and
    the encoder fitted on both. *)
Lemma data_prep_spec (fs : FileSystem) (data_folder : string) (hparams : HParams) :
  data_prep fs data_folder hparams =
    match fs (path_join data_folder "train.json") [("data_root", data_folder)] with
    | inl err => inl err
    | inr train =>
        match fs (path_join data_folder "dev.json") [("data_root", data_folder)] with
        | inl err => inl err
        | inr valid =>
            inr (prepared train, prepared valid, fitted_encoder hparams train valid)
        end
    end.
Proof.
  unfold data_prep, from_json.
  destruct (fs (path_join data_folder "train.json") _) as [|train]; [reflexivity|].
  destruct (fs (path_join data_folder "dev.json") _) as [|valid]; [reflexivity|].
  cbn [mbind Result_bind mret Result_ret]. cbn zeta.
  unfold add_dynamic_item, set_output_keys. cbn [data pipeline output_keys app].
  rewrite update_from_didataset_scan. cbn [mbind Result_bind].
  rewrite update_from_didataset_scan. reflexivity.
Qed.

Lemma data_prep_inv (fs : FileSystem) (data_folder : string) (hparams : HParams)
    (train_data valid_data : Dataset) (label_encoder : CTCTextEncoder) :
  data_prep fs data_folder hparams = inr (train_data, valid_data, label_encoder) →
  ∃ train valid,
    fs (path_join data_folder "train.json") [("data_root", data_folder)] = inr train ∧
    fs (path_join data_folder "dev.json") [("data_root", data_folder)] = inr valid ∧
    train_data = prepared train ∧ valid_data = prepared valid ∧
    label_encoder = fitted_encoder hparams train valid.
Proof.
  rewrite data_prep_spec. intros Hprep.
  destruct (fs (path_join data_folder "train.json") _) as [|train]; [done|].
  destruct (fs (path_join data_folder "dev.json") _) as [|valid]; [done|].
  inversion Hprep. by exists train, valid.
Qed.

Lemma phoneme_symbols_elem (entries : list Utterance) (u : Utterance) (label : string) :
  u ∈ entries → label ∈ split (strip (phn u)) → label ∈ phoneme_symbols entries.
Proof.
  unfold phoneme_symbols. induction 1 as [u entries|u v entries Hu IH]; intros Hl; cbn.
  - apply elem_of_app. by left.
  - apply elem_of_app. right. by apply IH.
Qed.

(** A sequence whose symbols are all in the vocabulary is encoded, symbol by
    symbol. *)
Lemma encode_sequence_total (e : CTCTextEncoder) (labels : list string) :
  (∀ label, label ∈ labels → label ∈ dom (lab2ind e)) →
  ∃ x, encode_sequence_torch e labels = inr x ∧ length x = length labels.
Proof.
  unfold encode_sequence_torch.
  induction labels as [|l labels IH]; intros Hdom; [by exists []|].
  destruct IH as (x & Hx & Hlen); [intros; apply Hdom; by right|].
  assert (l ∈ dom (lab2ind e)) as [i Hi]%elem_of_dom by (apply Hdom; by left).
  exists (i :: x). cbn [mapR]. rewrite Hx. unfold encode_label. rewrite Hi.
  cbn. by rewrite Hlen.
Qed.

(** The items of a prepared dataset, on the fitted encoder: the encoded
    sequence exists, and the start-prefixed one is it after the configured
    index. *)
Lemma prepared_encoded (hparams : HParams) (train valid entries : list Utterance)
    (u : Utterance) :
  entries = train ∨ entries = valid →
  u ∈ entries →
  let e := fitted_encoder hparams train valid in
  ∃ x, compute_key e (prepared entries) u "phn_encoded" = inr (VLong x) ∧
       compute_key e (prepared entries) u "phn_encoded_bos" =
         inr (VLong (bos_index hparams :: x)).
Proof.
  intros Hwhich Hu e.
  destruct (encode_sequence_total e (split (strip (phn u)))) as (x & Hx & _).
  { intros label Hl. unfold e. rewrite fitted_encoder_dom.
    apply elem_of_union_r, elem_of_list_to_set, elem_of_app.
    destruct Hwhich as [->| ->]; [left|right]; by eapply phoneme_symbols_elem. }
  exists x. rewrite compute_key_phn_encoded, compute_key_phn_encoded_bos, Hx.
  split; [done|].
  destruct (fitted_encoder_bos hparams train valid) as [Hb Hi].
  unfold prepend_bos_index, encode_label. fold e in Hb, Hi. by rewrite Hb, Hi.
Qed.

(** C1: after [data_prep], for every record of either dataset the text
    pipeline gives an encoded sequence and a start-prefixed one; the second
    is one longer than the first and begins with [hparams["bos_index"]]. *)
Theorem bos_prefixed_sequence (fs : FileSystem) (data_folder : string) (hparams : HParams)
    (train_data valid_data : Dataset) (label_encoder : CTCTextEncoder)
    (d : Dataset) (u : Utterance) :
  data_prep fs data_folder hparams = inr (train_data, valid_data, label_encoder) →
  d = train_data ∨ d = valid_data →
  u ∈ data d →
  ∃ phn_encoded phn_encoded_bos,
    compute_key label_encoder d u "phn_encoded" = inr (VLong phn_encoded) ∧
    compute_key label_encoder d u "phn_encoded_bos" = inr (VLong phn_encoded_bos) ∧
    length phn_encoded_bos = S (length phn_encoded) ∧
    head phn_encoded_bos = Some (bos_index hparams).
Proof.
  intros (train & valid & _ & _ & -> & -> & ->)%data_prep_inv Hd Hu.
  destruct (prepared_encoded hparams train valid (data d) u) as (x & Hx & Hbos).
  - destruct Hd as [->| ->]; auto.
  - done.
  - exists x, (bos_index hparams :: x).
    destruct Hd as [->| ->]; cbn [data prepared] in *; by rewrite Hx, Hbos.
Qed.

(** The number of distinct labels among three. *)
Lemma size_three_labels (a b c : string) :
  size ({[ a; b; c ]} : gset string) =
    if decide (a = b) then (if decide (b = c) then 1 else 2)%nat
    else if decide (a = c) then 2%nat
    else if decide (b = c) then 2%nat else 3%nat.
Proof.
  destruct (decide (a = b)) as [->|Hab].
  - replace ({[ b; b; c ]} : gset string) with ({[b]} ∪ {[c]} : gset string) by set_solver.
    destruct (decide (b = c)) as [->|Hbc].
    + replace ({[c]} ∪ {[c]} : gset string) with ({[c]} : gset string) by set_solver.
      apply size_singleton.
    + rewrite size_union, !size_singleton by set_solver. done.
  - destruct (decide (a = c)) as [->|Hac].
    + replace ({[ c; b; c ]} : gset string) with ({[c]} ∪ {[b]} : gset string) by set_solver.
      rewrite size_union, !size_singleton by set_solver. done.
    + destruct (decide (b = c)) as [->|Hbc].
      * replace ({[ a; c; c ]} : gset string) with ({[a]} ∪ {[c]} : gset string)
          by set_solver.
        rewrite size_union, !size_singleton by set_solver. done.
      * rewrite !size_union, !size_singleton by set_solver. done.
Qed.

(** C2, as amended: after [data_prep] the vocabulary of the encoder is the
    set of the phoneme symbols of the two datasets together with the labels
    of the reserved markers: the blank label, the begin label, and the end
    label, which [data_prep] sets to "<bos>".  Its size is the number of
    distinct phoneme symbols that are not reserved labels plus the number of
    distinct reserved labels (the number of distinct phoneme symbols plus
    that number, when no phoneme symbol is a reserved label).  The number of
    distinct reserved labels is between one and three; it is three if and
    only if the three labels are pairwise distinct; when the begin label is
    "<bos>" as well, it is two if the blank label is not "<bos>" and one if
    it is. *)
Theorem vocabulary_size (fs : FileSystem) (data_folder : string) (hparams : HParams)
    (train_data valid_data : Dataset) (label_encoder : CTCTextEncoder) :
  data_prep fs data_folder hparams = inr (train_data, valid_data, label_encoder) →
  let symbols : gset string :=
    list_to_set (phoneme_symbols (data train_data) ++ phoneme_symbols (data valid_data)) in
  dom (lab2ind label_encoder) = reserved_labels ∪ symbols ∧
  vocab_size label_encoder =
    (size (symbols ∖ reserved_labels) + size reserved_labels)%nat ∧
  (reserved_labels ## symbols →
     vocab_size label_encoder = (size symbols + size reserved_labels)%nat) ∧
  (1 ≤ size reserved_labels ≤ 3)%nat ∧
  (size reserved_labels = 3%nat ↔
     blank_label_default ≠ bos_label_default ∧ blank_label_default ≠ "<bos>" ∧
     bos_label_default ≠ "<bos>") ∧
  (bos_label_default = "<bos>" →
     size reserved_labels = if decide (blank_label_default = "<bos>") then 1%nat else 2%nat).
Proof.
  intros (train & valid & _ & _ & -> & -> & ->)%data_prep_inv symbols.
  cbn [data prepared] in symbols.
  assert (Hdom : dom (lab2ind (fitted_encoder hparams train valid)) =
                 reserved_labels ∪ symbols) by apply fitted_encoder_dom.
  assert (Hsize : vocab_size (fitted_encoder hparams train valid) =
                  size (reserved_labels ∪ symbols)) by apply fitted_encoder_size.
  pose proof (size_three_labels blank_label_default bos_label_default "<bos>") as Hcount.
  fold reserved_labels in Hcount.
  split; [done|]. split; [|split; [|split; [|split]]].
  - rewrite Hsize, size_union_alt. lia.
  - intros Hdisj. rewrite Hsize, size_union by done. lia.
  - rewrite Hcount. repeat case_decide; lia.
  - rewrite Hcount. repeat case_decide; split; try lia; try (intros (? & ? & ?); congruence).
    all: intros _; repeat split; congruence.
  - intros Hb. rewrite Hcount. repeat case_decide; congruence.
Qed.

Lemma mapR_keys {A : Type} (f : string → Result A) (keys : list string)
    (item : list (string * A)) :
  mapR (fun key => v ← f key; mret (key, v)) keys = inr item → item.*1 = keys.
Proof.
  revert item. induction keys as [|k keys IH]; intros item; cbn.
  - by intros [= <-].
  - destruct (f k) as [|v]; cbn; [done|].
    destruct (mapR _ keys) as [|rest]; [done|].
    intros [= <-]. cbn. f_equal. by apply IH.
Qed.

(** C5: after [data_prep] each of the two datasets has the four output keys
    id, sig, phn_encoded, phn_encoded_bos; every item it gives has exactly
    these four fields, in this order; and it gives the item of every record
    whose audio file can be read. *)
Theorem output_fields (fs : FileSystem) (data_folder : string) (hparams : HParams)
    (train_data valid_data : Dataset) (label_encoder : CTCTextEncoder) (d : Dataset) :
  data_prep fs data_folder hparams = inr (train_data, valid_data, label_encoder) →
  d = train_data ∨ d = valid_data →
  let keys := ["id"; "sig"; "phn_encoded"; "phn_encoded_bos"] in
  output_keys d = keys ∧
  (∀ i item, getitem label_encoder d i = inr item → item.*1 = keys) ∧
  (∀ i u sig, data d !! i = Some u → read_audio (wav u) = inr sig →
     ∃ item, getitem label_encoder d i = inr item).
Proof.
  intros (train & valid & _ & _ & -> & -> & ->)%data_prep_inv Hd keys.
  assert (Hkeys : output_keys d = keys) by (by destruct Hd as [->| ->]).
  split; [done|]. split.
  - intros i item. unfold getitem. destruct (data d !! i) as [u|]; [|done].
    rewrite Hkeys. apply mapR_keys.
  - intros i u sig Hi Hsig. unfold getitem. rewrite Hi.
    destruct (prepared_encoded hparams train valid (data d) u) as (x & Hx & Hbos).
    { destruct Hd as [->| ->]; auto. }
    { by eapply list_elem_of_lookup_2. }
    assert (Hd' : d = prepared (data d)) by (by destruct Hd as [->| ->]).
    rewrite Hd'. cbn [output_keys prepared mapR].
    rewrite compute_key_sig, Hsig, Hx, Hbos. cbn. eauto.
Qed.

(** X21: of the files [data_prep] reads only the two manifests under the data
    folder, and of the configuration only the blank and the begin index: two
    calls that agree on these end alike, whatever else the file systems and
    the configurations hold.  Both raise the same error, or both return, with
    datasets of the same sizes and records and, record by record, the same
    encoded and start-prefixed sequences. *)
Theorem data_prep_reads (fs1 fs2 : FileSystem) (data_folder : string)
    (hparams1 hparams2 : HParams) :
  (∀ name, name ∈ ["train.json"; "dev.json"] →
     fs1 (path_join data_folder name) [("data_root", data_folder)] =
     fs2 (path_join data_folder name) [("data_root", data_folder)]) →
  blank_index hparams1 = blank_index hparams2 →
  bos_index hparams1 = bos_index hparams2 →
  match data_prep fs1 data_folder hparams1, data_prep fs2 data_folder hparams2 with
  | inr (train1, valid1, e1), inr (train2, valid2, e2) =>
      Dataset_len train1 = Dataset_len train2 ∧
      Dataset_len valid1 = Dataset_len valid2 ∧
      data train1 = data train2 ∧ data valid1 = data valid2 ∧
      ∀ key u, key ∈ ["phn_encoded"; "phn_encoded_bos"] →
        compute_key e1 train1 u key = compute_key e2 train2 u key ∧
        compute_key e1 valid1 u key = compute_key e2 valid2 u key
  | inl err1, inl err2 => err1 = err2
  | _, _ => False
  end.
Proof.
  intros Hfs Hblank Hbos. rewrite !data_prep_spec.
  rewrite <- (Hfs "train.json"), <- (Hfs "dev.json") by set_solver.
  destruct (fs1 (path_join data_folder "train.json") _) as [|train]; [done|].
  destruct (fs1 (path_join data_folder "dev.json") _) as [|valid]; [done|].
  assert (He : fitted_encoder hparams1 train valid = fitted_encoder hparams2 train valid).
  { unfold fitted_encoder, reserved_encoder. by rewrite Hblank, Hbos. }
  rewrite He. repeat split; reflexivity.
Qed.

End DataPrep.

(** ** Runs on the small instance *)

(** The two lists of records of the small instance. *)
Definition demo_train : list (@Utterance) :=
  [ {| utt_id := "utt1"; wav := "/d/utt1.wav"; phn := " sil a  b sil " |};
    {| utt_id := "utt2"; wav := "/d/utt2.wav"; phn := "b c" |} ].

Definition demo_valid : list (@Utterance) :=
  [ {| utt_id := "utt3"; wav := "/d/utt3.wav"; phn := "c d" |} ].

Example data_prep_demo :
  data_prep (TK := demo_toolkit) demo_files "/d" demo_hparams =
    inr (prepared demo_train, prepared demo_valid,
         fitted_encoder demo_hparams demo_train demo_valid).
Proof. rewrite data_prep_spec. reflexivity. Qed.

Example getitem_demo :
  getitem (TK := demo_toolkit) (fitted_encoder demo_hparams demo_train demo_valid)
    (prepared demo_train) 0 =
    inr [("id", VStr "utt1"); ("sig", VSig (demo_tensor [11]));
         ("phn_encoded", VLong [2; 3; 4; 2]);
         ("phn_encoded_bos", VLong [1; 2; 3; 4; 2])].
Proof. vm_compute. reflexivity. Qed.

Example compute_forward_demo :
  compute_forward (brain demo_world_mid) demo_batch TRAIN =
    Pred2 (demo_tensor [8; 1; 5; 6]) (demo_tensor [1]) ∧
  compute_forward (brain demo_world_mid) demo_batch VALID =
    Pred3 (demo_tensor [8; 1; 5; 6]) (demo_tensor [1]) [[8]].
Proof. split; reflexivity. Qed.

(** C1 on the small instance: the record of the validation manifest. *)
Lemma bos_prefixed_sequence_witness :
  ∃ phn_encoded phn_encoded_bos,
    compute_key (TK := demo_toolkit) (fitted_encoder demo_hparams demo_train demo_valid)
      (prepared demo_valid) {| utt_id := "utt3"; wav := "/d/utt3.wav"; phn := "c d" |}
      "phn_encoded" = inr (VLong phn_encoded) ∧
    compute_key (TK := demo_toolkit) (fitted_encoder demo_hparams demo_train demo_valid)
      (prepared demo_valid) {| utt_id := "utt3"; wav := "/d/utt3.wav"; phn := "c d" |}
      "phn_encoded_bos" = inr (VLong phn_encoded_bos) ∧
    length phn_encoded_bos = S (length phn_encoded) ∧
    head phn_encoded_bos = Some (bos_index demo_hparams).
Proof.
  apply (bos_prefixed_sequence (TK := demo_toolkit) demo_files "/d" demo_hparams
           (prepared demo_train) (prepared demo_valid)).
  - rewrite data_prep_spec. reflexivity.
  - right. reflexivity.
  - left.
Defined.

(** C2, as amended, on the small instance: five symbols and two reserved
    labels, seven entries. *)
Lemma vocabulary_size_witness :
  let symbols : gset string :=
    list_to_set (phoneme_symbols demo_train ++ phoneme_symbols demo_valid) in
  let e := fitted_encoder (TK := demo_toolkit) demo_hparams demo_train demo_valid in
  dom (lab2ind e) = reserved_labels (TK := demo_toolkit) ∪ symbols ∧
  vocab_size e = 7%nat ∧ size symbols = 5%nat ∧
  size (reserved_labels (TK := demo_toolkit)) = 2%nat.
Proof.
  destruct (vocabulary_size (TK := demo_toolkit) demo_files "/d" demo_hparams
              (prepared demo_train) (prepared demo_valid)
              (fitted_encoder demo_hparams demo_train demo_valid))
    as (Hdom & _ & _ & _ & _ & Htwo).
  - rewrite data_prep_spec. reflexivity.
  - cbn zeta. split; [exact Hdom|]. split; [|split].
    + vm_compute. reflexivity.
    + vm_compute. reflexivity.
    + apply (Htwo eq_refl).
Defined.

(** C2 as stated fails.  On the small instance, whose begin label is
    "<bos>", the label [data_prep] gives the end marker, the five phoneme
    symbols make a vocabulary of seven.  And whatever the default labels of
    the toolkit, a transcript that consists of the token "<bos>" makes a
    vocabulary of at most three, with one phoneme symbol. *)
Lemma vocabulary_not_plus_three :
  (vocab_size (fitted_encoder (TK := demo_toolkit) demo_hparams demo_train demo_valid) = 7%nat ∧
   size (list_to_set (phoneme_symbols demo_train ++ phoneme_symbols demo_valid) : gset string)
     = 5%nat) ∧
  ¬ ∃ TK : Toolkit,
      ∀ (fs : FileSystem) (data_folder : string) (hparams : HParams)
        (train_data valid_data : Dataset) (label_encoder : CTCTextEncoder),
        data_prep fs data_folder hparams = inr (train_data, valid_data, label_encoder) →
        vocab_size label_encoder =
          (size (list_to_set (phoneme_symbols (data train_data) ++
                              phoneme_symbols (data valid_data)) : gset string) + 3)%nat.
Proof.
  split; [split; vm_compute; reflexivity|].
  intros [TK Hclaim].
  set (u := {| utt_id := "utt"; wav := "utt.wav"; phn := "<bos>" |}).
  set (hp := {| hp_modules := {| compute_features := fun x => x;
                                mean_var_norm := fun x _ => x;
                                enc := fun x => x; enc_lin := fun x => x;
                                emb := fun x => x; dec := fun x => (x, x);
                                dec_lin := fun x => x; Tjoint := fun x _ => x;
                                output := fun x => x |};
               hp_opt_class := "SGD"; log_softmax := fun x => x;
               searcher := fun x => ([], x, x, x);
               compute_cost := fun x _ _ _ => x;
               blank_index := 0; bos_index := 1; N_epochs := 1;
               dataloader_options := [] |}).
  specialize (Hclaim (fun _ _ => inr [u]) "/d" hp (prepared [u]) (prepared [u])
                (fitted_encoder hp [u] [u])).
  rewrite data_prep_spec in Hclaim. specialize (Hclaim eq_refl).
  rewrite fitted_encoder_size in Hclaim. cbn [data prepared] in Hclaim.
  change (phoneme_symbols [u] ++ phoneme_symbols [u]) with ["<bos>"; "<bos>"] in Hclaim.
  assert (Hsub : reserved_labels ∪ list_to_set (C := gset string) ["<bos>"; "<bos>"]
                 = reserved_labels).
  { rewrite (comm_L (∪)). apply subseteq_union_1_L.
    intros label [->|[->|[]%elem_of_nil]%elem_of_cons]%elem_of_list_to_set%elem_of_cons;
      unfold reserved_labels; apply elem_of_union_r, elem_of_singleton; reflexivity. }
  rewrite Hsub in Hclaim. pose proof reserved_labels_size as Hle.
  assert (Hone : size (list_to_set (C := gset string) ["<bos>"; "<bos>"]) = 1%nat)
    by (vm_compute; reflexivity).
  rewrite Hone in Hclaim. lia.
Qed.

(** C5 on the small instance: the training dataset. *)
Lemma output_fields_witness :
  output_keys (prepared (TK := demo_toolkit) demo_train) =
    ["id"; "sig"; "phn_encoded"; "phn_encoded_bos"] ∧
  (∀ i item,
     getitem (TK := demo_toolkit) (fitted_encoder demo_hparams demo_train demo_valid)
       (prepared demo_train) i = inr item →
     item.*1 = ["id"; "sig"; "phn_encoded"; "phn_encoded_bos"]) ∧
  (∀ i u sig, data (prepared (TK := demo_toolkit) demo_train) !! i = Some u →
     read_audio (Toolkit := demo_toolkit) (wav u) = inr sig →
     ∃ item,
       getitem (TK := demo_toolkit) (fitted_encoder demo_hparams demo_train demo_valid)
         (prepared demo_train) i = inr item).
Proof.
  apply (output_fields (TK := demo_toolkit) demo_files "/d" demo_hparams
           (prepared demo_train) (prepared demo_valid)).
  - rewrite data_prep_spec. reflexivity.
  - left. reflexivity.
Defined.

(** A configuration that differs from [demo_hparams] in what [data_prep]
    does not read. *)
Definition demo_hparams_longer : @HParams demo_toolkit :=
  {| hp_modules := demo_modules;
     hp_opt_class := "Adam";
     log_softmax := fun x => x;
     searcher := fun x => ([], x, x, x);
     compute_cost := fun _ t _ _ => t;
     blank_index := 0;
     bos_index := 1;
     N_epochs := 15;
     dataloader_options := [("batch_size", 2)] |}.

(** X21 on the small instance: the same manifests under two configurations
    with the same special indices. *)
Lemma data_prep_reads_witness :
  match data_prep (TK := demo_toolkit) demo_files "/d" demo_hparams,
        data_prep (TK := demo_toolkit) demo_files "/d" demo_hparams_longer with
  | inr (train1, valid1, e1), inr (train2, valid2, e2) =>
      Dataset_len train1 = Dataset_len train2 ∧
      Dataset_len valid1 = Dataset_len valid2 ∧
      data train1 = data train2 ∧ data valid1 = data valid2 ∧
      ∀ key u, key ∈ ["phn_encoded"; "phn_encoded_bos"] →
        compute_key e1 train1 u key = compute_key e2 train2 u key ∧
        compute_key e1 valid1 u key = compute_key e2 valid2 u key
  | inl err1, inl err2 => err1 = err2
  | _, _ => False
  end.
Proof.
  apply (data_prep_reads (TK := demo_toolkit) demo_files demo_files "/d"
           demo_hparams demo_hparams_longer).
  - intros name _. reflexivity.
  - reflexivity.
  - reflexivity.
Defined.

(** C10 on the small instance: one batch in stage VALID, on an empty
    accumulator. *)
Lemma compute_objectives_frame_witness :
  let w := demo_world_mid in
  let r := compute_objectives (compute_forward (brain w) demo_batch VALID)
             demo_batch VALID w in
  same_but_per_metrics w r.2 ∧
  ∃ loss entry,
    r.1 = inr loss ∧
    per_metrics (brain r.2) = Some ([] ++ [entry]) ∧
    entry.1.1.1 = batch_id demo_batch ∧
    length ([] ++ [entry]) = 1%nat.
Proof.
  cbn zeta.
  pose proof (compute_objectives_frame (TK := demo_toolkit)
                (compute_forward (brain demo_world_mid) demo_batch VALID)
                demo_batch VALID demo_world_mid) as (Hframe & _ & Heval).
  split; [exact Hframe|].
  apply (Heval ltac:(discriminate) [] eq_refl eq_refl).
Defined.

Example compute_objectives_demo :
  (compute_objectives (compute_forward (brain demo_world_mid) demo_batch TEST)
     demo_batch TEST demo_world_mid).1 = inr (demo_tensor [8; 1; 5; 6]) ∧
  per_metrics (brain (compute_objectives
                        (compute_forward (brain demo_world_mid) demo_batch TEST)
                        demo_batch TEST demo_world_mid).2) =
    Some [(["utt3"], [[8]], demo_tensor [5; 6], demo_tensor [1])] ∧
  compute_objectives (compute_forward (brain demo_world_mid) demo_batch TRAIN)
    demo_batch TRAIN demo_world_mid = (inr (demo_tensor [8; 1; 5; 6]), demo_world_mid).
Proof. repeat split; reflexivity. Qed.

Example on_stage_start_demo :
  on_stage_start (TK := demo_toolkit) TRAIN (Some 0) demo_world = (inr tt, demo_world) ∧
  per_metrics (brain (on_stage_start (TK := demo_toolkit) VALID (Some 0) demo_world).2) =
    Some [] ∧
  per_metrics (brain (on_stage_start (TK := demo_toolkit) TEST None demo_world).2) = Some [].
Proof. repeat split; reflexivity. Qed.

(** C4 as stated fails: at the end of stage VALID with no epoch number,
    [on_stage_end] prints neither an epoch number nor the remembered
    training loss, which is there to print. *)
Lemma on_stage_end_valid_without_epoch :
  let r := on_stage_end (TK := demo_toolkit) VALID 0.25%float None demo_world_mid in
  train_loss (brain demo_world_mid) = Some 0.5%float ∧
  r.1 = inr tt ∧
  stdout r.2 = ["Stage.VALID loss: 0.25"; "Stage.VALID PER: 0.00"] ∧
  ("Train loss: " +:+ fmt_2f 0.5%float) ∉ stdout r.2.
Proof.
  cbn zeta.
  assert (Hout : stdout (on_stage_end (TK := demo_toolkit) VALID 0.25%float None
                           demo_world_mid).2 =
                 ["Stage.VALID loss: 0.25"; "Stage.VALID PER: 0.00"])
    by (vm_compute; reflexivity).
  split; [reflexivity|]. split; [vm_compute; reflexivity|]. split; [exact Hout|].
  rewrite Hout. intros [H|[H|[]%elem_of_nil]%elem_of_cons]%elem_of_cons;
    vm_compute in H; discriminate H.
Qed.

(** C4, as amended, on the small instance: the end of stage VALID of
    epoch 3, with a training loss remembered and an accumulator in place. *)
Lemma on_stage_end_effects_witness :
  let r := on_stage_end (TK := demo_toolkit) VALID 1.5%float (Some 3) demo_world_mid in
  brain r.2 = brain demo_world_mid ∧
  r.1 = inr tt ∧
  stdout r.2 =
    stdout demo_world_mid ++ epoch_lines 3 0.5%float ++
      stage_lines (TK := demo_toolkit) VALID 1.5%float [].
Proof.
  exact (on_stage_end_effects (TK := demo_toolkit) VALID 1.5%float (Some 3)
           demo_world_mid).
Defined.

Example on_stage_end_demo :
  stdout (on_stage_end (TK := demo_toolkit) VALID 1.5%float (Some 3) demo_world_mid).2 =
    ["Epoch 3 complete"; "Train loss: 0.50";
     "Stage.VALID loss: 1.50"; "Stage.VALID PER: 0.00"] ∧
  train_loss (brain (on_stage_end (TK := demo_toolkit) TRAIN 0.25%float (Some 3)
                       demo_world).2) = Some 0.25%float ∧
  on_stage_end (TK := demo_toolkit) VALID 1.5%float (Some 3) demo_world =
    (inl (AttributeError "train_loss"),
     {| brain := brain demo_world; stdout := ["Epoch 3 complete"] |}).
Proof. repeat split; vm_compute; reflexivity. Qed.

(** C9 on the small instance: a run with the end of a TRAIN stage, and a run
    without one. *)
Lemma train_loss_read_witness :
  (∃ x, get_train_loss (calls demo_calls demo_world).2 =
          (inr x, (calls demo_calls demo_world).2) ∧
        (on_stage_end VALID 1.5%float (Some 0) (calls demo_calls demo_world).2).1 ≠
          inl (AttributeError "train_loss") ∧
        ("Train loss: " +:+ fmt_2f x) ∈
          stdout (on_stage_end VALID 1.5%float (Some 0) (calls demo_calls demo_world).2).2) ∧
  (get_train_loss (calls [CallStageStart VALID (Some 0)] demo_world).2 =
     (inl (AttributeError "train_loss"), (calls [CallStageStart VALID (Some 0)] demo_world).2) ∧
   (on_stage_end VALID 1.5%float (Some 0)
      (calls [CallStageStart VALID (Some 0)] demo_world).2).1 =
     inl (AttributeError "train_loss")).
Proof.
  split.
  - apply (train_loss_read (TK := demo_toolkit) demo_calls demo_world
             (calls demo_calls demo_world).2 1.5%float 0); reflexivity.
  - apply (train_loss_read (TK := demo_toolkit) [CallStageStart VALID (Some 0)] demo_world
             (calls [CallStageStart VALID (Some 0)] demo_world).2 1.5%float 0); reflexivity.
Defined.

(** C7 on the small instance: the loop remembers the training loss 0.5. *)
Lemma main_assertion_witness :
  (main demo_env = inl AssertionError ↔ PrimFloat.ltb 0.5%float 1%float = false) ∧
  (main demo_env = inr tt ↔ PrimFloat.ltb 0.5%float 1%float = true).
Proof.
  eapply (main_assertion (TK := demo_toolkit) demo_env demo_hparams
            (prepared demo_train) (prepared demo_valid)
            (fitted_encoder demo_hparams demo_train demo_valid)).
  - reflexivity.
  - reflexivity.
  - rewrite data_prep_spec. reflexivity.
  - vm_compute. reflexivity.
  - vm_compute. reflexivity.
  - reflexivity.
Defined.

Example main_demo : main demo_env = inr tt.
Proof. vm_compute. reflexivity. Qed.

(** ** Further properties of the hooks *)

Section HookRuns.
Context `{TK : Toolkit}.

(** The stage a hook call is made for. *)
Definition call_stage (c : HookCall) : Stage :=
  match c with
  | CallStageStart stage _ => stage
  | CallObjectives _ _ stage => stage
  | CallStageEnd stage _ _ => stage
  end.

(** Whether a call starts a stage other than TRAIN. *)
Definition is_eval_start (c : HookCall) : bool :=
  match c with
  | CallStageStart VALID _ | CallStageStart TEST _ => true
  | _ => false
  end.

(** The loss of the last TRAIN-stage end of a run, [init] if there is none. *)
Definition last_train_loss (init : option float) (cs : list HookCall) : option float :=
  foldl (fun acc c =>
           match c with
           | CallStageEnd TRAIN stage_loss _ => Some stage_loss
           | _ => acc
           end) init cs.

(** The predictions and batches of a stage other than TRAIN, as calls of
    [compute_objectives]. *)
Definition objectives_calls (stage : Stage)
    (steps : list (Tensor * Tensor * list (list Z) * Batch)) : list HookCall :=
  (fun '(outputs, lens, hyps, batch) =>
     CallObjectives (Pred3 outputs lens hyps) batch stage) <$> steps.

(** What [compute_objectives] appends for each of them. *)
Definition objectives_entries
    (steps : list (Tensor * Tensor * list (list Z) * Batch)) : ErrorRateStats :=
  (fun '(outputs, lens, hyps, batch) =>
     (batch_id batch, hyps, (batch_phn_encoded batch).1, (batch_phn_encoded batch).2))
    <$> steps.

(** Splits the tuples [compute_forward] takes apart and compares its results
    over the three stages. *)
Ltac forward_by_stage :=
  unfold compute_forward;
  match goal with
  | |- context [batch_sig (Batch_to ?b ?d)] =>
      destruct (batch_sig (Batch_to b d)) as [? ?];
      destruct (batch_phn_encoded_bos (Batch_to b d)) as [? ?]
  end;
  match goal with |- context [dec ?m ?x] => destruct (dec m x) as [? ?] end;
  cbn [decide Stage_eq_dec];
  match goal with
  | |- context [searcher ?h ?x] => destruct (searcher h x) as [[[? ?] ?] ?]
  end;
  eexists _, _, _; repeat split; reflexivity.

(** X1: the log-probabilities and the lengths [compute_forward] returns do
    not depend on the stage: in VALID and in TEST it returns one and the same
    triple, whose first two components are the pair it returns in TRAIN. *)
Theorem compute_forward_stage_independent (self : TransducerBrain) (batch : Batch) :
  ∃ outputs lens hyps,
    compute_forward self batch TRAIN = Pred2 outputs lens ∧
    compute_forward self batch VALID = Pred3 outputs lens hyps ∧
    compute_forward self batch TEST = Pred3 outputs lens hyps.
Proof. forward_by_stage. Qed.

(** X2: [compute_forward] reads of the batch only the signals and the
    start-prefixed targets, and of the instance only the networks, the
    configuration and the device. *)
Theorem compute_forward_reads (self1 self2 : TransducerBrain) (batch1 batch2 : Batch)
    (stage : Stage) :
  modules self1 = modules self2 →
  hparams self1 = hparams self2 →
  device self1 = device self2 →
  batch_sig batch1 = batch_sig batch2 →
  batch_phn_encoded_bos batch1 = batch_phn_encoded_bos batch2 →
  compute_forward self1 batch1 stage = compute_forward self2 batch2 stage.
Proof.
  intros Hm Hh Hd Hsig Hbos. unfold compute_forward, Batch_to. cbn [batch_sig batch_phn_encoded_bos].
  by rewrite Hm, Hh, Hd, Hsig, Hbos.
Qed.

(** X3: predictions made for one kind of stage and handed to
    [compute_objectives] for the other raise [ValueError] at the unpacking;
    nothing is appended and the world is as it was. *)
Theorem compute_objectives_stage_mismatch (batch : Batch) (stage : Stage) (w : World) :
  stage ≠ TRAIN →
  compute_objectives (compute_forward (brain w) batch TRAIN) batch stage w =
    (inl (ValueError "not enough values to unpack (expected 3, got 2)"), w) ∧
  compute_objectives (compute_forward (brain w) batch stage) batch TRAIN w =
    (inl (ValueError "too many values to unpack (expected 2)"), w).
Proof.
  intros Hstage. split.
  - rewrite (compute_objectives_eval _ _ _ _ Hstage).
    pose proof (compute_forward_shape (brain w) batch TRAIN) as (o & l & ->). reflexivity.
  - rewrite compute_objectives_train.
    pose proof (compute_forward_shape (brain w) batch stage) as Hshape.
    destruct (decide (stage = TRAIN)); [done|].
    destruct Hshape as (o & l & h & ->). reflexivity.
Qed.

(** X4: with an accumulator in place, the loss [compute_objectives] returns
    on the predictions of [compute_forward] is the same in every stage: the
    hypotheses of the searcher do not enter it. *)
Theorem loss_stage_independent (batch : Batch) (stage : Stage) (w : World)
    (stats : ErrorRateStats) :
  per_metrics (brain w) = Some stats →
  ∃ loss,
    (compute_objectives (compute_forward (brain w) batch TRAIN) batch TRAIN w).1 = inr loss ∧
    (compute_objectives (compute_forward (brain w) batch stage) batch stage w).1 = inr loss.
Proof.
  intros Hstats.
  assert (∃ outputs lens hyps,
            compute_forward (brain w) batch TRAIN = Pred2 outputs lens ∧
            compute_forward (brain w) batch VALID = Pred3 outputs lens hyps ∧
            compute_forward (brain w) batch TEST = Pred3 outputs lens hyps)
    as (o & l & h & Ht & Hv & He) by forward_by_stage.
  exists (objective (brain w) o l batch).
  rewrite compute_objectives_train, Ht. split; [reflexivity|].
  destruct stage.
  - rewrite compute_objectives_train, Ht. reflexivity.
  - rewrite compute_objectives_eval by done. rewrite Hv, Hstats. reflexivity.
  - rewrite compute_objectives_eval by done. rewrite He, Hstats. reflexivity.
Qed.

(** What a call of [compute_objectives] in a run leaves behind. *)
Lemma call_objectives (predictions : Predictions) (batch : Batch) (stage : Stage) (w : World) :
  (call (CallObjectives predictions batch stage) w).2 =
    (compute_objectives predictions batch stage w).2 ∧
  ((call (CallObjectives predictions batch stage) w).1 = inr tt ↔
   ∃ loss, (compute_objectives predictions batch stage w).1 = inr loss).
Proof.
  cbn [call]. unfold mbind, M_bind.
  destruct (compute_objectives predictions batch stage w) as [[e|loss] w']; cbn.
  - split; [done|]. split; [done|]. by intros [? ?].
  - split; [done|]. split; [by eexists|done].
Qed.

(** The part of the world no hook writes, and the output, which only grows. *)
Definition kept (w w' : World) : Prop :=
  modules (brain w') = modules (brain w) ∧
  hparams (brain w') = hparams (brain w) ∧
  device (brain w') = device (brain w) ∧
  stdout w `prefix_of` stdout w'.

Lemma kept_trans (w1 w2 w3 : World) : kept w1 w2 → kept w2 w3 → kept w1 w3.
Proof.
  intros (Hm1 & Hh1 & Hd1 & Hp1) (Hm2 & Hh2 & Hd2 & Hp2).
  repeat split; try congruence. by etrans.
Qed.

Lemma on_stage_end_kept (stage : Stage) (stage_loss : float) (epoch : option Z) (w : World) :
  kept w (on_stage_end stage stage_loss epoch w).2.
Proof.
  destruct (decide (stage = TRAIN)) as [->|Hstage].
  { rewrite on_stage_end_train. repeat split; reflexivity. }
  pose proof (on_stage_end_brain stage stage_loss epoch w Hstage) as Hbrain.
  unfold kept. rewrite Hbrain. repeat split.
  destruct (decide (stage = VALID ∧ is_Some epoch)) as [[-> [n ->]]|Hplain].
  - rewrite on_stage_end_valid_epoch. cbn zeta.
    destruct (train_loss (brain w)); [|cbn; by apply prefix_app_r].
    destruct (per_metrics (brain w)); cbn; repeat apply prefix_app_r; done.
  - rewrite on_stage_end_plain; [|done|].
    + cbn zeta. destruct (per_metrics (brain w)); cbn; repeat apply prefix_app_r; done.
    + destruct stage; [done| |by left]. destruct epoch; [|by right].
      exfalso. apply Hplain. split; [done|by eexists].
Qed.

Lemma call_kept (c : HookCall) (w : World) : kept w (call c w).2.
Proof.
  destruct c as [stage epoch|predictions batch stage|stage stage_loss epoch].
  - cbn [call]. destruct stage; repeat split; reflexivity.
  - destruct (call_objectives predictions batch stage w) as [-> _].
    destruct (compute_objectives_same predictions batch stage w) as (? & ? & ? & _ & Hout).
    repeat split; try done. by rewrite Hout.
  - cbn [call]. apply on_stage_end_kept.
Qed.

(** The world a run leaves behind, call by call. *)
Lemma calls_world (c : HookCall) (cs : list HookCall) (w : World) :
  (calls (c :: cs) w).2 =
    match (call c w).1 with
    | inl _ => (call c w).2
    | inr _ => (calls cs (call c w).2).2
    end.
Proof. rewrite calls_cons. by destruct (call c w).1. Qed.

(** X8: no run of hook calls, whether it returns or raises, changes the
    networks, the configuration or the device of the instance, and none takes
    back a line it has printed: the output before is a prefix of the output
    after. *)
Theorem hooks_keep (cs : list HookCall) (w : World) :
  modules (brain (calls cs w).2) = modules (brain w) ∧
  hparams (brain (calls cs w).2) = hparams (brain w) ∧
  device (brain (calls cs w).2) = device (brain w) ∧
  stdout w `prefix_of` stdout (calls cs w).2.
Proof.
  change (kept w (calls cs w).2). revert w.
  induction cs as [|c cs IH]; intros w.
  - repeat split; reflexivity.
  - rewrite calls_world. pose proof (call_kept c w) as Hc.
    destruct (call c w).1; [done|]. eapply kept_trans; [exact Hc|apply IH].
Qed.

(** What one call made for stage TRAIN leaves alone. *)
Lemma call_train_quiet (c : HookCall) (w : World) :
  call_stage c = TRAIN →
  stdout (call c w).2 = stdout w ∧ per_metrics (brain (call c w).2) = per_metrics (brain w).
Proof.
  destruct c as [stage epoch|predictions batch stage|stage stage_loss epoch];
    cbn [call_stage]; intros ->.
  - done.
  - destruct (call_objectives predictions batch TRAIN w) as [-> _].
    rewrite compute_objectives_train. by destruct predictions.
  - cbn [call]. by rewrite on_stage_end_train.
Qed.

(** X9: hook calls made for stage TRAIN print nothing and leave the
    error-rate accumulator as it is, in place or absent, whether they return
    or raise: [on_stage_start] does not renew it for a TRAIN stage. *)
Theorem train_stage_quiet (cs : list HookCall) (w : World) :
  Forall (fun c => call_stage c = TRAIN) cs →
  stdout (calls cs w).2 = stdout w ∧
  per_metrics (brain (calls cs w).2) = per_metrics (brain w).
Proof.
  intros Hcs. revert w. induction Hcs as [|c cs Hc _ IH]; intros w; [done|].
  rewrite calls_world. destruct (call_train_quiet c w Hc) as [Hout Hstats].
  destruct (call c w).1; [done|].
  destruct (IH (call c w).2) as [-> ->]. done.
Qed.

(** X7: after a run of hook calls that returns, the remembered training
    loss is the loss handed to the last end of a TRAIN stage in the run, and
    what it was before the run if there is none. *)
Theorem train_loss_is_last (cs : list HookCall) (w w' : World) :
  calls cs w = (inr tt, w') →
  train_loss (brain w') = last_train_loss (train_loss (brain w)) cs.
Proof.
  revert w. induction cs as [|c cs IH]; intros w Hrun.
  - cbn in *. by inversion Hrun.
  - rewrite calls_cons in Hrun.
    destruct (call c w).1 as [e|u] eqn:Hc; [done|].
    rewrite (IH _ Hrun), call_train_loss. cbn [last_train_loss foldl].
    by destruct c as [| |[] ? ?].
Qed.

Lemma same_but_per_metrics_trans (w1 w2 w3 : World) :
  same_but_per_metrics w1 w2 → same_but_per_metrics w2 w3 → same_but_per_metrics w1 w3.
Proof.
  intros (? & ? & ? & ? & ?) (? & ? & ? & ? & ?). repeat split; congruence.
Qed.

(** The calls of [compute_objectives] of a stage other than TRAIN, on an
    accumulator in place: they return and append their entries in order. *)
Lemma objectives_calls_append (stage : Stage)
    (steps : list (Tensor * Tensor * list (list Z) * Batch)) (w : World)
    (stats : ErrorRateStats) :
  stage ≠ TRAIN →
  per_metrics (brain w) = Some stats →
  (calls (objectives_calls stage steps) w).1 = inr tt ∧
  per_metrics (brain (calls (objectives_calls stage steps) w).2) =
    Some (stats ++ objectives_entries steps) ∧
  same_but_per_metrics w (calls (objectives_calls stage steps) w).2.
Proof.
  intros Hstage. revert w stats.
  induction steps as [|[[[outputs lens] hyps] batch] steps IH]; intros w stats Hstats.
  - cbn. rewrite app_nil_r. repeat split; done.
  - cbn [objectives_calls fmap list_fmap]. fold (objectives_calls stage steps).
    rewrite calls_cons.
    destruct (call_objectives (Pred3 outputs lens hyps) batch stage w) as [Hw Hr].
    pose proof (compute_objectives_same (Pred3 outputs lens hyps) batch stage w) as Hsame.
    rewrite (compute_objectives_eval _ _ _ _ Hstage), Hstats in Hw, Hr. cbn zeta in Hw, Hr.
    cbn [fst snd] in Hr.
    assert (Hok : (call (CallObjectives (Pred3 outputs lens hyps) batch stage) w).1 = inr tt)
      by (apply Hr; by eexists).
    rewrite Hok.
    set (w1 := (call (CallObjectives (Pred3 outputs lens hyps) batch stage) w).2) in *.
    assert (Hstats1 : per_metrics (brain w1) =
              Some (stats ++ [(batch_id batch, hyps, (batch_phn_encoded batch).1,
                               (batch_phn_encoded batch).2)]))
      by (by rewrite Hw).
    destruct (IH w1 _ Hstats1) as (Hret & Hacc & Hframe).
    split; [done|]. split.
    + rewrite Hacc. cbn [objectives_entries fmap list_fmap].
      by rewrite <- app_assoc.
    + eapply same_but_per_metrics_trans; [|exact Hframe].
      unfold w1. destruct (call_objectives (Pred3 outputs lens hyps) batch stage w) as [-> _].
      exact Hsame.
Qed.

(** X5: a stage other than TRAIN that starts with [on_stage_start] and then
    has [compute_objectives] called on a triple for each of its batches
    returns throughout and ends with exactly its own entries in the
    accumulator, one for each batch, in order: whatever an earlier stage left
    there is gone.  Nothing else of the world changes. *)
Theorem stage_accumulates (stage : Stage) (epoch : option Z)
    (steps : list (Tensor * Tensor * list (list Z) * Batch)) (w : World) :
  stage ≠ TRAIN →
  let r := calls (CallStageStart stage epoch :: objectives_calls stage steps) w in
  r.1 = inr tt ∧
  per_metrics (brain r.2) = Some (objectives_entries steps) ∧
  length (objectives_entries steps) = length steps ∧
  same_but_per_metrics w r.2.
Proof.
  intros Hstage. cbn zeta. rewrite calls_cons. cbn [call].
  assert (Hstart : on_stage_start stage epoch w = (inr tt, (set_per_metrics [] w).2))
    by (by destruct stage).
  rewrite Hstart. cbn [fst snd].
  destruct (objectives_calls_append stage steps (set_per_metrics [] w).2 [] Hstage eq_refl)
    as (Hret & Hacc & Hframe).
  split; [done|]. split; [done|]. split.
  - unfold objectives_entries. by rewrite length_fmap.
  - eapply same_but_per_metrics_trans; [|exact Hframe]. repeat split; reflexivity.
Qed.

(** What one call does to an absent accumulator. *)
Lemma call_per_metrics_absent (c : HookCall) (w : World) :
  per_metrics (brain w) = None →
  is_eval_start c = false →
  per_metrics (brain (call c w).2) = None.
Proof.
  intros Hnone Hc.
  destruct c as [stage epoch|predictions batch stage|stage stage_loss epoch].
  - by destruct stage.
  - destruct (call_objectives predictions batch stage w) as [-> _].
    destruct (decide (stage = TRAIN)) as [->|Hstage].
    + rewrite compute_objectives_train. by destruct predictions.
    + rewrite (compute_objectives_eval _ _ _ _ Hstage), Hnone. by destruct predictions.
  - cbn [call]. destruct (decide (stage = TRAIN)) as [->|Hstage].
    + by rewrite on_stage_end_train.
    + by rewrite on_stage_end_brain.
Qed.

(** An accumulator in place stays in place. *)
Lemma call_per_metrics_present (c : HookCall) (w : World) :
  is_Some (per_metrics (brain w)) ∨ is_eval_start c = true →
  is_Some (per_metrics (brain (call c w).2)).
Proof.
  intros Hc.
  destruct c as [stage epoch|predictions batch stage|stage stage_loss epoch].
  - destruct stage; cbn; [by destruct Hc|by eexists..].
  - destruct Hc as [[stats Hstats]|]; [|done].
    destruct (call_objectives predictions batch stage w) as [-> _].
    destruct (decide (stage = TRAIN)) as [->|Hstage].
    + rewrite compute_objectives_train. destruct predictions; by eexists.
    + rewrite (compute_objectives_eval _ _ _ _ Hstage), Hstats.
      destruct predictions; by eexists.
  - destruct Hc as [Hsome|]; [|done]. cbn [call].
    destruct (decide (stage = TRAIN)) as [->|Hstage].
    + by rewrite on_stage_end_train.
    + by rewrite on_stage_end_brain.
Qed.

Lemma calls_per_metrics (cs : list HookCall) (w w' : World) :
  calls cs w = (inr tt, w') →
  if existsb is_eval_start cs || bool_decide (is_Some (per_metrics (brain w)))
  then is_Some (per_metrics (brain w'))
  else per_metrics (brain w') = None.
Proof.
  revert w. induction cs as [|c cs IH]; intros w Hrun.
  - cbn in *. inversion Hrun; subst.
    destruct (decide (is_Some (per_metrics (brain w')))) as [Hs|Hs].
    + by rewrite bool_decide_true.
    + rewrite bool_decide_false by done. by apply eq_None_not_Some.
  - rewrite calls_cons in Hrun.
    destruct (call c w).1 as [e|u] eqn:Hc; [done|].
    specialize (IH _ Hrun). cbn [existsb].
    destruct (is_eval_start c) eqn:Hstart.
    + rewrite bool_decide_true in IH by (apply call_per_metrics_present; by right).
      by rewrite orb_true_r in IH.
    + cbn [orb]. destruct (decide (is_Some (per_metrics (brain w)))) as [Hs|Hs].
      * rewrite bool_decide_true in IH by (apply call_per_metrics_present; by left).
        rewrite orb_true_r in IH. by rewrite bool_decide_true, orb_true_r by done.
      * rewrite (bool_decide_false _ Hs).
        rewrite bool_decide_false in IH; [done|].
        rewrite call_per_metrics_absent; [by intros [? ?]| |done].
        by apply eq_None_not_Some.
Qed.

(** X6: take a new instance, which has no accumulator, and a run of hook
    calls on it that returns.  If the start of a VALID or TEST stage is among
    the calls, an accumulator is in place.  If none is, then for a stage other
    than TRAIN [compute_objectives] raises the attribute error on a triple and
    appends nothing, and [on_stage_end] raises an attribute error. *)
Theorem per_metrics_needs_stage_start (cs : list HookCall) (w0 w : World) :
  per_metrics (brain w0) = None →
  calls cs w0 = (inr tt, w) →
  if existsb is_eval_start cs then is_Some (per_metrics (brain w))
  else
    ∀ stage, stage ≠ TRAIN →
      (∀ outputs lens hyps batch,
         compute_objectives (Pred3 outputs lens hyps) batch stage w =
           (inl (AttributeError "per_metrics"), w)) ∧
      (∀ stage_loss epoch,
         ∃ attr, (on_stage_end stage stage_loss epoch w).1 = inl (AttributeError attr)).
Proof.
  intros Hnew Hrun. pose proof (calls_per_metrics cs w0 w Hrun) as Hinv.
  rewrite Hnew, bool_decide_false, orb_false_r in Hinv by (by intros [? ?]).
  destruct (existsb is_eval_start cs); [done|].
  intros stage Hstage. split.
  - intros outputs lens hyps batch.
    by rewrite (compute_objectives_eval _ _ _ _ Hstage), Hinv.
  - intros stage_loss epoch.
    destruct (decide (stage = VALID ∧ is_Some epoch)) as [[-> [n ->]]|Hplain].
    + rewrite on_stage_end_valid_epoch. cbn zeta. rewrite Hinv.
      destruct (train_loss (brain w)); by eexists.
    + rewrite on_stage_end_plain; [|done|].
      * cbn zeta. rewrite Hinv. by eexists.
      * destruct stage; [done| |by left]. destruct epoch; [|by right].
        exfalso. apply Hplain. split; [done|by eexists].
Qed.

End HookRuns.

(** ** Further properties of [main] *)

Section MainRuns.
Context `{TK : Toolkit}.

(** [test_error], lines 171-172: the test calls [main]. *)
Definition test_error (env : Env) : Result unit := main env.

(** [env] with another evaluation loop. *)
Definition with_evaluate (env : Env) (ev : CTCTextEncoder * Dataset → M unit) : Env :=
  {| numba_installed := numba_installed env;
     experiment_dir := experiment_dir env;
     resolve := resolve env;
     load_extended_yaml := load_extended_yaml env;
     load_data_json := load_data_json env;
     default_device := default_device env;
     fit := fit env;
     evaluate := ev |}.

(** The data folder [main] hands to [data_prep]. *)
Definition main_data_folder (env : Env) : string :=
  resolve env (path_join (experiment_dir env)
                 "../../../../samples/audio_samples/nn_training_samples").

(** The steps of [main] after the datasets are there. *)
Lemma train_and_check_steps (env : Env) (hparams : HParams) (train_data valid_data : Dataset)
    (label_encoder : CTCTextEncoder) (w : World) :
  train_and_check env hparams train_data valid_data label_encoder w =
    match fit env (range (N_epochs hparams)) (label_encoder, train_data)
            (label_encoder, valid_data) (dataloader_options hparams) w with
    | (inl e, w1) => (inl e, w1)
    | (inr _, w1) =>
        match evaluate env (label_encoder, valid_data) w1 with
        | (inl e, w2) => (inl e, w2)
        | (inr _, w2) => assert_overfits w2
        end
    end.
Proof.
  unfold train_and_check. unfold mbind at 1 2, M_bind at 1 2.
  destruct (fit env _ _ _ _ w) as [[e|[]] w1]; [reflexivity|].
  destruct (evaluate env _ w1) as [[e|[]] w2]; reflexivity.
Qed.

(** The steps of [main], in order. *)
Lemma main_steps (env : Env) :
  main env =
    if numba_installed env then
      match load_extended_yaml env (path_join (experiment_dir env) "hyperparams.yaml") with
      | inl e => inl e
      | inr hparams =>
          match data_prep (load_data_json env) (main_data_folder env) hparams with
          | inl e => inl e
          | inr (train_data, valid_data, label_encoder) =>
              (train_and_check env hparams train_data valid_data label_encoder
                 (main_world env hparams)).1
          end
      end
    else inl (Skipped "numba").
Proof.
  unfold main, main_data_folder. destruct (numba_installed env); [|reflexivity].
  cbn [negb]. cbn zeta.
  destruct (load_extended_yaml env _) as [e|hparams]; [reflexivity|].
  cbn [mbind Result_bind].
  destruct (data_prep _ _ hparams) as [e|[[train_data valid_data] label_encoder]];
    reflexivity.
Qed.

(** X10: the test passes only if every step of [main] went through: [numba]
    is there, the configuration is loaded, [data_prep] returns, training and
    then evaluation return, a training loss is remembered at the end, and it
    is below 1.0. *)
Theorem test_passes_only_if (env : Env) :
  test_error env = inr tt →
  numba_installed env = true ∧
  ∃ hparams train_data valid_data label_encoder w1 w2 x,
    load_extended_yaml env (path_join (experiment_dir env) "hyperparams.yaml") = inr hparams ∧
    data_prep (load_data_json env) (main_data_folder env) hparams =
      inr (train_data, valid_data, label_encoder) ∧
    fit env (range (N_epochs hparams)) (label_encoder, train_data)
      (label_encoder, valid_data) (dataloader_options hparams)
      (main_world env hparams) = (inr tt, w1) ∧
    evaluate env (label_encoder, valid_data) w1 = (inr tt, w2) ∧
    train_loss (brain w2) = Some x ∧
    PrimFloat.ltb x 1%float = true.
Proof.
  unfold test_error. rewrite main_steps.
  destruct (numba_installed env); [|done].
  destruct (load_extended_yaml env _) as [e|hparams]; [done|].
  destruct (data_prep _ _ hparams) as [e|[[train_data valid_data] label_encoder]] eqn:Hdata;
    [done|].
  rewrite train_and_check_steps.
  destruct (fit env _ _ _ _ _) as [[e|[]] w1] eqn:Hfit; [done|].
  destruct (evaluate env _ w1) as [[e|[]] w2] eqn:Heval; [done|].
  rewrite assert_overfits_spec.
  destruct (train_loss (brain w2)) as [x|] eqn:Hloss; [|done].
  destruct (PrimFloat.ltb x 1) eqn:Hlt; [|done].
  intros _. split; [done|].
  by exists hparams, train_data, valid_data, label_encoder, w1, w2, x.
Qed.

(** X11: when training raises, [main] raises the same exception, whatever
    the evaluation loop is: evaluation is not run and the loss is not
    checked. *)
Theorem training_error_propagates (env : Env) (hparams : HParams)
    (train_data valid_data : Dataset) (label_encoder : CTCTextEncoder)
    (e : Exn) (w1 : World) (ev : CTCTextEncoder * Dataset → M unit) :
  numba_installed env = true →
  load_extended_yaml env (path_join (experiment_dir env) "hyperparams.yaml") = inr hparams →
  data_prep (load_data_json env) (main_data_folder env) hparams =
    inr (train_data, valid_data, label_encoder) →
  fit env (range (N_epochs hparams)) (label_encoder, train_data)
    (label_encoder, valid_data) (dataloader_options hparams)
    (main_world env hparams) = (inl e, w1) →
  main (with_evaluate env ev) = inl e.
Proof.
  intros Hnumba Hyaml Hdata Hfit. rewrite main_steps.
  cbn [with_evaluate numba_installed load_extended_yaml experiment_dir load_data_json].
  rewrite Hnumba, Hyaml.
  change (main_data_folder (with_evaluate env ev)) with (main_data_folder env).
  rewrite Hdata, train_and_check_steps.
  change (main_world (with_evaluate env ev) hparams) with (main_world env hparams).
  cbn [with_evaluate fit]. by rewrite Hfit.
Qed.

(** A run of two lists of calls, one after the other. *)
Lemma calls_app (cs1 cs2 : list HookCall) (w : World) :
  calls (cs1 ++ cs2) w =
    match calls cs1 w with
    | (inl e, w1) => (inl e, w1)
    | (inr _, w1) => calls cs2 w1
    end.
Proof.
  revert w. induction cs1 as [|c cs1 IH]; intros w; [reflexivity|].
  cbn [app]. rewrite !calls_cons.
  destruct (call c w) as [[e|[]] w1]; cbn [fst snd]; [reflexivity|]. apply IH.
Qed.

(** X12: if the two loops come down to runs of hook calls that return and
    none of the calls ends a TRAIN stage (a training of zero epochs), the
    check at the end of [main] finds no training loss: [main] raises the
    attribute error, not the assertion error. *)
Theorem main_without_training (env : Env) (hparams : HParams)
    (train_data valid_data : Dataset) (label_encoder : CTCTextEncoder)
    (cs1 cs2 : list HookCall) (w : World) :
  numba_installed env = true →
  load_extended_yaml env (path_join (experiment_dir env) "hyperparams.yaml") = inr hparams →
  data_prep (load_data_json env) (main_data_folder env) hparams =
    inr (train_data, valid_data, label_encoder) →
  fit env (range (N_epochs hparams)) (label_encoder, train_data)
    (label_encoder, valid_data) (dataloader_options hparams) = calls cs1 →
  evaluate env (label_encoder, valid_data) = calls cs2 →
  existsb is_train_end (cs1 ++ cs2) = false →
  calls (cs1 ++ cs2) (main_world env hparams) = (inr tt, w) →
  main env = inl (AttributeError "train_loss").
Proof.
  intros Hnumba Hyaml Hdata Hfit Heval Hnone Hrun.
  pose proof (calls_train_loss _ _ _ Hrun) as Hloss. rewrite Hnone in Hloss.
  cbn in Hloss.
  rewrite main_steps, Hnumba, Hyaml, Hdata, train_and_check_steps, Hfit, Heval.
  rewrite calls_app in Hrun.
  destruct (calls cs1 (main_world env hparams)) as [[e|[]] w1]; [done|].
  rewrite Hrun, assert_overfits_spec, Hloss. reflexivity.
Qed.

End MainRuns.

(** ** Further properties of the text pipeline and of [data_prep] *)

(** Whether every character of a string passes a test. *)
Fixpoint all_chars (p : ascii → bool) (s : string) : bool :=
  match s with
  | EmptyString => true
  | String c s' => p c && all_chars p s'
  end.

(** A token: it has a character and none of its characters is a space. *)
Definition is_token (w : string) : Prop :=
  w ≠ EmptyString ∧ all_chars (fun c => negb (is_space c)) w = true.

Lemma all_chars_app (p : ascii → bool) (s1 s2 : string) :
  all_chars p (s1 +:+ s2) = all_chars p s1 && all_chars p s2.
Proof.
  induction s1 as [|c s1 IH]; [reflexivity|].
  change (p c && all_chars p (s1 +:+ s2) = p c && all_chars p s1 && all_chars p s2).
  by rewrite IH, andb_assoc.
Qed.

Lemma split_from_lstrip (s : string) : split_from None (lstrip s) = split_from None s.
Proof.
  induction s as [|c s IH]; [reflexivity|]. cbn [lstrip].
  destruct (is_space c) eqn:Hc; [|reflexivity]. cbn [split_from]. by rewrite Hc.
Qed.

Lemma split_from_cons (cur : option string) (c : ascii) (s : string) :
  split_from cur (String c s) =
    if is_space c then
      match cur with
      | Some w => w :: split_from None s
      | None => split_from None s
      end
    else split_from (Some (default EmptyString cur +:+ String c EmptyString)) s.
Proof. reflexivity. Qed.

Lemma split_from_rstrip (s : string) (cur : option string) :
  split_from cur (rstrip s) = split_from cur s.
Proof.
  revert cur. induction s as [|c s IH]; intros cur; [reflexivity|].
  cbn [rstrip]. destruct (rstrip s) as [|c' r] eqn:Hr.
  - destruct (is_space c) eqn:Hc; cbn [split_from]; rewrite Hc.
    + rewrite <- (IH None). by destruct cur.
    + by rewrite <- IH.
  - rewrite !(split_from_cons _ c). destruct (is_space c); [|by rewrite IH].
    by rewrite (IH None).
Qed.

Lemma split_strip (phn : string) : split (strip phn) = split phn.
Proof.
  unfold split, strip. by rewrite split_from_rstrip, split_from_lstrip.
Qed.

(** X13: stripping the transcript before splitting it changes nothing:
    [phn.strip().split()] is [phn.split()], and so is the split after a strip
    on either side alone. *)
Theorem strip_is_redundant (phn : string) :
  split (strip phn) = split phn ∧
  split (lstrip phn) = split phn ∧
  split (rstrip phn) = split phn.
Proof.
  split; [apply split_strip|]. unfold split.
  split; [apply split_from_lstrip|apply split_from_rstrip].
Qed.

Lemma split_from_tokens (s : string) (cur : option string) :
  (∀ w, cur = Some w → is_token w) → Forall is_token (split_from cur s).
Proof.
  revert cur. induction s as [|c s IH]; intros cur Hcur; cbn [split_from].
  - destruct cur as [w|]; [|constructor]. constructor; [by apply Hcur|constructor].
  - destruct (is_space c) eqn:Hc.
    + destruct cur as [w|].
      * constructor; [by apply Hcur|]. by apply IH.
      * by apply IH.
    + apply IH. intros w [= <-]. split.
      * by destruct cur as [[|? ?]|].
      * rewrite all_chars_app. cbn [all_chars]. rewrite Hc.
        destruct cur as [w|]; [|reflexivity]. change (default EmptyString (Some w)) with w.
        destruct (Hcur w eq_refl) as [_ ->]. reflexivity.
Qed.

(** X14: every symbol of the token list the text pipeline yields first has
    at least one character and holds no whitespace character. *)
Theorem phn_list_tokens (phn : string) : Forall is_token (split (strip phn)).
Proof.
  rewrite split_strip. apply split_from_tokens. by intros w [=].
Qed.

Lemma split_all_space (s : string) :
  all_chars is_space s = true → split_from None s = [].
Proof.
  induction s as [|c s IH]; [reflexivity|]. cbn.
  intros [Hc Hs]%andb_true_iff. rewrite Hc. by apply IH.
Qed.

Section DataRuns.
Context `{TK : Toolkit}.

(** What [encode_sequence_torch] returns is the id of each symbol, in order. *)
Lemma encode_sequence_ids (e : CTCTextEncoder) (labels : list string) (x : list Z) :
  encode_sequence_torch e labels = inr x →
  Forall2 (fun label i => lab2ind e !! label = Some i) labels x.
Proof.
  unfold encode_sequence_torch. revert x.
  induction labels as [|l labels IH]; intros x; cbn [mapR].
  - intros [= <-]. constructor.
  - unfold encode_label at 1. destruct (lab2ind e !! l) as [i|] eqn:Hl; [|done].
    destruct (mapR (encode_label e) labels) as [|ys]; [done|].
    intros [= <-]. constructor; [done|]. by apply IH.
Qed.


(** X15: after [data_prep], a transcript that is empty or all whitespace
    gives the empty token list and the empty encoded sequence, and the
    start-prefixed sequence is the begin index alone. *)
Theorem blank_transcript (fs : FileSystem) (data_folder : string) (hparams : HParams)
    (train_data valid_data : Dataset) (label_encoder : CTCTextEncoder)
    (d : Dataset) (u : Utterance) :
  data_prep fs data_folder hparams = inr (train_data, valid_data, label_encoder) →
  d = train_data ∨ d = valid_data →
  all_chars is_space (phn u) = true →
  compute_key label_encoder d u "phn_list" = inr (VList []) ∧
  compute_key label_encoder d u "phn_encoded" = inr (VLong []) ∧
  compute_key label_encoder d u "phn_encoded_bos" = inr (VLong [bos_index hparams]).
Proof.
  intros (train & valid & _ & _ & -> & -> & ->)%data_prep_inv Hd Hblank.
  assert (Hsplit : split (strip (phn u)) = [])
    by (rewrite split_strip; by apply split_all_space).
  assert (Hd' : d = prepared (data d)) by (by destruct Hd as [->| ->]).
  rewrite Hd'. rewrite compute_key_phn_encoded, compute_key_phn_encoded_bos.
  unfold prepared at 1. rewrite compute_key_phn_list, Hsplit.
  destruct (fitted_encoder_bos hparams train valid) as [Hb Hi].
  cbn. unfold prepend_bos_index, encode_label. by rewrite Hb, Hi.
Qed.

(** X16: after [data_prep], for every record of either dataset the encoded
    sequence has one id for each symbol of the token list, in order, and the
    id is the one the returned encoder holds for the symbol. *)
Theorem encoded_ids (fs : FileSystem) (data_folder : string) (hparams : HParams)
    (train_data valid_data : Dataset) (label_encoder : CTCTextEncoder)
    (d : Dataset) (u : Utterance) :
  data_prep fs data_folder hparams = inr (train_data, valid_data, label_encoder) →
  d = train_data ∨ d = valid_data →
  u ∈ data d →
  ∃ phn_list phn_encoded,
    compute_key label_encoder d u "phn_list" = inr (VList phn_list) ∧
    compute_key label_encoder d u "phn_encoded" = inr (VLong phn_encoded) ∧
    phn_list = split (phn u) ∧
    length phn_encoded = length phn_list ∧
    Forall2 (fun label i => lab2ind label_encoder !! label = Some i) phn_list phn_encoded.
Proof.
  intros Hprep Hd Hu.
  destruct (data_prep_inv _ _ _ _ _ _ Hprep) as (train & valid & _ & _ & -> & -> & ->).
  destruct (prepared_encoded hparams train valid (data d) u) as (x & Hx & _).
  { destruct Hd as [->| ->]; auto. }
  { done. }
  assert (Hd' : d = prepared (data d)) by (by destruct Hd as [->| ->]).
  exists (split (phn u)), x. rewrite Hd'.
  split; [unfold prepared; by rewrite compute_key_phn_list, split_strip|].
  split; [done|]. split; [done|].
  rewrite compute_key_phn_encoded in Hx.
  destruct (encode_sequence_torch _ _) as [|y] eqn:Hy; [done|].
  injection Hx as <-. rewrite split_strip in Hy.
  pose proof (encode_sequence_ids _ _ _ Hy) as Hids.
  split; [symmetry; by eapply Forall2_length|done].
Qed.

(** With a configuration that holds the two indices, [data_prep] raises what
    reading a manifest raises, the training manifest first, and returns when
    both manifests are read. *)
Lemma data_prep_raises_on_manifest (fs : FileSystem) (data_folder : string)
    (hparams : HParams) :
  match fs (path_join data_folder "train.json") [("data_root", data_folder)],
        fs (path_join data_folder "dev.json") [("data_root", data_folder)] with
  | inl e, _ => data_prep fs data_folder hparams = inl e
  | inr _, inl e => data_prep fs data_folder hparams = inl e
  | inr train, inr valid =>
      ∃ train_data valid_data label_encoder,
        data_prep fs data_folder hparams = inr (train_data, valid_data, label_encoder) ∧
        data train_data = train ∧ data valid_data = valid
  end.
Proof.
  rewrite data_prep_spec.
  destruct (fs (path_join data_folder "train.json") _) as [|train]; [done|].
  destruct (fs (path_join data_folder "dev.json") _) as [|valid]; [done|].
  by eexists _, _, _.
Qed.



End DataRuns.

(** [hundredths] rounds to nearest.  For a float [m * 2^e], [hundredths m e]
    is [100 * m * 2^e] itself when that is an integer by [0 <= e]; otherwise
    it differs from it by at most one half, and by exactly one half only when
    it is even. *)
Lemma hundredths_nearest (m : positive) (e : Z) :
  let q := hundredths m e in
  if 0 <=? e then q = 100 * Z.pos m * 2 ^ e
  else
    let d := 2 ^ (- e) in
    0 ≤ q ∧
    2 * Z.abs (100 * Z.pos m - q * d) ≤ d ∧
    (2 * Z.abs (100 * Z.pos m - q * d) = d → Z.even q = true).
Proof.
  unfold hundredths. destruct (0 <=? e) eqn:He; [reflexivity|].
  apply Z.leb_gt in He. cbn zeta.
  set (n := 100 * Z.pos m). set (d := 2 ^ (- e)).
  assert (Hd : 0 < d) by (apply Z.pow_pos_nonneg; lia).
  assert (Hn : 0 ≤ n) by (unfold n; lia).
  pose proof (Z.div_mod n d ltac:(lia)) as Hdiv.
  pose proof (Z.mod_pos_bound n d Hd) as Hr.
  pose proof (Z.div_pos n d Hn Hd) as Hq.
  set (q0 := n / d) in *. set (r := n mod d) in *.
  destruct (d <? 2 * r) eqn:Hlt; cbn [orb].
  - apply Z.ltb_lt in Hlt. split; [lia|]. split; [nia|]. intros Htie. nia.
  - apply Z.ltb_ge in Hlt. destruct (d =? 2 * r) eqn:Heq; cbn [andb].
    + apply Z.eqb_eq in Heq. destruct (Z.odd q0) eqn:Hodd.
      * split; [lia|]. split; [nia|]. intros _.
        replace (q0 + 1) with (Z.succ q0) by lia. by rewrite Z.even_succ.
      * split; [lia|]. split; [nia|]. intros _.
        by rewrite <- Z.negb_odd, Hodd.
    + apply Z.eqb_neq in Heq. split; [lia|]. split; [nia|]. intros Htie. nia.
Qed.

(** ** Further runs on the small instance *)

(** A batch with the signals and prefixed targets of [demo_batch] and
    another id and other plain targets. *)
Definition demo_batch_other : @Batch demo_toolkit :=
  {| batch_id := ["utt9"];
     batch_sig := (demo_tensor [8], demo_tensor [1]);
     batch_phn_encoded := (demo_tensor [2; 3], demo_tensor [1]);
     batch_phn_encoded_bos := (demo_tensor [1; 5; 6], demo_tensor [1]) |}.

(** The steps of a stage of two batches. *)
Definition demo_steps
    : list (@Tensor demo_toolkit * @Tensor demo_toolkit * list (list Z) * @Batch demo_toolkit) :=
  [(demo_tensor [8; 1; 5; 6], demo_tensor [1], [[8]], demo_batch);
   (demo_tensor [8; 1; 5; 6], demo_tensor [1], [[7]], demo_batch_other)].

(** Two epochs of training alone. *)
Definition demo_train_calls : list (@HookCall demo_toolkit) :=
  [CallStageStart TRAIN (Some 0); CallStageEnd TRAIN 0.5%float (Some 0);
   CallStageStart TRAIN (Some 1); CallStageEnd TRAIN 0.25%float (Some 1)].

(** The small instance with a training loop that raises. *)
Definition demo_env_failing : @Env demo_toolkit :=
  {| numba_installed := true;
     experiment_dir := "/x";
     resolve := fun _ => "/d";
     load_extended_yaml := fun _ => inr demo_hparams;
     load_data_json := demo_files;
     default_device := "cpu";
     fit := fun _ _ _ _ => M_raise (ValueError "shape mismatch");
     evaluate := demo_evaluate |}.

(** The small instance with a training of zero epochs. *)
Definition demo_env_idle : @Env demo_toolkit :=
  {| numba_installed := true;
     experiment_dir := "/x";
     resolve := fun _ => "/d";
     load_extended_yaml := fun _ => inr demo_hparams;
     load_data_json := demo_files;
     default_device := "cpu";
     fit := fun _ _ _ _ => calls [];
     evaluate := fun _ => calls [CallStageStart TEST None;
                                 CallStageEnd TEST 1.5%float None] |}.



(** X2 on the small instance. *)
Lemma compute_forward_reads_witness :
  compute_forward (brain demo_world) demo_batch VALID =
  compute_forward (brain demo_world_mid) demo_batch_other VALID.
Proof.
  apply (compute_forward_reads (TK := demo_toolkit)); reflexivity.
Defined.

(** X3 on the small instance. *)
Lemma compute_objectives_stage_mismatch_witness :
  compute_objectives (compute_forward (brain demo_world_mid) demo_batch TRAIN)
    demo_batch VALID demo_world_mid =
    (inl (ValueError "not enough values to unpack (expected 3, got 2)"), demo_world_mid) ∧
  compute_objectives (compute_forward (brain demo_world_mid) demo_batch VALID)
    demo_batch TRAIN demo_world_mid =
    (inl (ValueError "too many values to unpack (expected 2)"), demo_world_mid).
Proof.
  apply (compute_objectives_stage_mismatch (TK := demo_toolkit)). discriminate.
Defined.

(** X4 on the small instance. *)
Lemma loss_stage_independent_witness :
  ∃ loss,
    (compute_objectives (compute_forward (brain demo_world_mid) demo_batch TRAIN)
       demo_batch TRAIN demo_world_mid).1 = inr loss ∧
    (compute_objectives (compute_forward (brain demo_world_mid) demo_batch TEST)
       demo_batch TEST demo_world_mid).1 = inr loss.
Proof.
  apply (loss_stage_independent (TK := demo_toolkit) demo_batch TEST demo_world_mid []).
  reflexivity.
Defined.

(** X5 on the small instance: a TEST stage of two batches. *)
Lemma stage_accumulates_witness :
  let r := calls (CallStageStart TEST None :: objectives_calls TEST demo_steps)
             demo_world_mid in
  r.1 = inr tt ∧
  per_metrics (brain r.2) = Some (objectives_entries demo_steps) ∧
  length (objectives_entries demo_steps) = length demo_steps ∧
  same_but_per_metrics demo_world_mid r.2.
Proof.
  apply (stage_accumulates (TK := demo_toolkit) TEST None demo_steps demo_world_mid).
  discriminate.
Defined.

(** X6 on the small instance: a run with the start of a VALID stage, and a
    run of training alone. *)
Lemma per_metrics_needs_stage_start_witness :
  is_Some (per_metrics (brain (calls demo_calls demo_world).2)) ∧
  ∀ stage, stage ≠ TRAIN →
    (∀ outputs lens hyps batch,
       compute_objectives (Pred3 outputs lens hyps) batch stage
         (calls demo_train_calls demo_world).2 =
         (inl (AttributeError "per_metrics"), (calls demo_train_calls demo_world).2)) ∧
    (∀ stage_loss epoch,
       ∃ attr, (on_stage_end stage stage_loss epoch
                  (calls demo_train_calls demo_world).2).1 = inl (AttributeError attr)).
Proof.
  split.
  - apply (per_metrics_needs_stage_start (TK := demo_toolkit) demo_calls demo_world);
      reflexivity.
  - apply (per_metrics_needs_stage_start (TK := demo_toolkit) demo_train_calls demo_world);
      reflexivity.
Defined.

(** X7 on the small instance: the loss of the second epoch is remembered. *)
Lemma train_loss_is_last_witness :
  train_loss (brain (calls demo_train_calls demo_world).2) = Some 0.25%float.
Proof.
  apply (train_loss_is_last (TK := demo_toolkit) demo_train_calls demo_world).
  reflexivity.
Defined.

(** X9 on the small instance: training alone, on an accumulator left by an
    earlier stage. *)
Lemma train_stage_quiet_witness :
  stdout (calls demo_train_calls demo_world_mid).2 = stdout demo_world_mid ∧
  per_metrics (brain (calls demo_train_calls demo_world_mid).2) =
    per_metrics (brain demo_world_mid).
Proof.
  apply (train_stage_quiet (TK := demo_toolkit) demo_train_calls demo_world_mid).
  repeat constructor.
Defined.

(** X10 on the small instance. *)
Lemma test_passes_only_if_witness :
  numba_installed demo_env = true ∧
  ∃ hparams train_data valid_data label_encoder w1 w2 x,
    load_extended_yaml demo_env (path_join (experiment_dir demo_env) "hyperparams.yaml") =
      inr hparams ∧
    data_prep (load_data_json demo_env) (main_data_folder demo_env) hparams =
      inr (train_data, valid_data, label_encoder) ∧
    fit demo_env (range (N_epochs hparams)) (label_encoder, train_data)
      (label_encoder, valid_data) (dataloader_options hparams)
      (main_world demo_env hparams) = (inr tt, w1) ∧
    evaluate demo_env (label_encoder, valid_data) w1 = (inr tt, w2) ∧
    train_loss (brain w2) = Some x ∧
    PrimFloat.ltb x 1%float = true.
Proof.
  apply (test_passes_only_if (TK := demo_toolkit) demo_env).
  vm_compute. reflexivity.
Defined.

(** X11 on the small instance: a training loop that raises. *)
Lemma training_error_propagates_witness :
  main (with_evaluate demo_env_failing demo_evaluate) = inl (ValueError "shape mismatch").
Proof.
  eapply (training_error_propagates (TK := demo_toolkit) demo_env_failing demo_hparams
            (prepared demo_train) (prepared demo_valid)
            (fitted_encoder demo_hparams demo_train demo_valid)).
  - reflexivity.
  - reflexivity.
  - rewrite data_prep_spec. reflexivity.
  - reflexivity.
Defined.

(** X12 on the small instance: a training of zero epochs. *)
Lemma main_without_training_witness :
  main demo_env_idle = inl (AttributeError "train_loss").
Proof.
  eapply (main_without_training (TK := demo_toolkit) demo_env_idle demo_hparams
            (prepared demo_train) (prepared demo_valid)
            (fitted_encoder demo_hparams demo_train demo_valid)
            [] [CallStageStart TEST None; CallStageEnd TEST 1.5%float None]).
  - reflexivity.
  - reflexivity.
  - rewrite data_prep_spec. reflexivity.
  - reflexivity.
  - reflexivity.
  - reflexivity.
  - vm_compute. reflexivity.
Defined.

(** X15 on the small instance: a transcript of two spaces. *)
Lemma blank_transcript_witness :
  let e := fitted_encoder (TK := demo_toolkit) demo_hparams demo_train demo_valid in
  let u := {| utt_id := "utt4"; wav := "/d/utt4.wav"; phn := "  " |} in
  compute_key (TK := demo_toolkit) e (prepared demo_valid) u "phn_list" = inr (VList []) ∧
  compute_key (TK := demo_toolkit) e (prepared demo_valid) u "phn_encoded" = inr (VLong []) ∧
  compute_key (TK := demo_toolkit) e (prepared demo_valid) u "phn_encoded_bos" = inr (VLong [1]).
Proof.
  apply (blank_transcript (TK := demo_toolkit) demo_files "/d" demo_hparams
           (prepared demo_train) (prepared demo_valid)).
  - rewrite data_prep_spec. reflexivity.
  - right. reflexivity.
  - reflexivity.
Defined.

(** X16 on the small instance: the first record of the training manifest. *)
Lemma encoded_ids_witness :
  let e := fitted_encoder (TK := demo_toolkit) demo_hparams demo_train demo_valid in
  let u := {| utt_id := "utt1"; wav := "/d/utt1.wav"; phn := " sil a  b sil " |} in
  ∃ phn_list phn_encoded,
    compute_key (TK := demo_toolkit) e (prepared demo_train) u "phn_list" = inr (VList phn_list) ∧
    compute_key (TK := demo_toolkit) e (prepared demo_train) u "phn_encoded" = inr (VLong phn_encoded) ∧
    phn_list = split (phn u) ∧
    length phn_encoded = length phn_list ∧
    Forall2 (fun label i => lab2ind e !! label = Some i) phn_list phn_encoded.
Proof.
  apply (encoded_ids (TK := demo_toolkit) demo_files "/d" demo_hparams
           (prepared demo_train) (prepared demo_valid)).
  - rewrite data_prep_spec. reflexivity.
  - left. reflexivity.
  - left.
Defined.



(** ** Two calls of [data_prep], on a store of objects *)

Section Store.
Context `{TK : Toolkit}.

(** The objects [data_prep] creates and updates in place. *)
Inductive Obj : Type :=
| ODataset (d : Dataset)
| OEncoder (e : CTCTextEncoder).

(** What a call of [data_prep] works on: the files, which it only reads,
    and the objects there are; a reference is a position in [heap]. *)
Record Store : Type := {
  files : FileSystem;
  heap : list Obj
}.

(** A step of [data_prep] on the store: it returns or raises, and leaves a
    store behind either way. *)
Definition St (A : Type) : Type := Store → Result A * Store.

#[global] Instance St_ret : MRet St := fun A x s => (inr x, s).
#[global] Instance St_bind : MBind St :=
  fun A B f m s => match m s with
                   | (inl e, s') => (inl e, s')
                   | (inr x, s') => f x s'
                   end.

Definition St_raise {A : Type} (e : Exn) : St A := fun s => (inl e, s).

(** A new object; its reference is returned. *)
Definition new_object (o : Obj) : St nat :=
  fun s => (inr (length (heap s)), {| files := files s; heap := heap s ++ [o] |}).

(** The dataset a reference names. *)
Definition get_dataset (ref : nat) : St Dataset :=
  fun s => match heap s !! ref with
           | Some (ODataset d) => (inr d, s)
           | _ => (inl (TypeError "not a dataset"), s)
           end.

(** The encoder a reference names. *)
Definition get_encoder (ref : nat) : St CTCTextEncoder :=
  fun s => match heap s !! ref with
           | Some (OEncoder e) => (inr e, s)
           | _ => (inl (TypeError "not an encoder"), s)
           end.

(** The update in place of the object a reference names. *)
Definition set_object (ref : nat) (o : Obj) : St unit :=
  fun s => (inr tt, {| files := files s; heap := <[ref := o]> (heap s) |}).

(** [for x in l: f(x)] *)
Fixpoint for_each {A : Type} (f : A → St unit) (l : list A) : St unit :=
  match l with
  | [] => mret tt
  | x :: l' => f x;; for_each f l'
  end.

(** [DynamicItemDataset.from_json(...)]: a new dataset object. *)
Definition from_json_st (json_path : string) (replacements : list (string * string))
    : St nat :=
  fun s => match from_json (files s) json_path replacements with
           | inl e => (inl e, s)
           | inr d => new_object (ODataset d) s
           end.

(** [add_dynamic_item(datasets, func)]: each dataset of the list, in place. *)
Definition add_dynamic_item_st (datasets : list nat) (item : DynamicItem) : St unit :=
  for_each (fun ref =>
              d ← get_dataset ref;
              set_object ref (ODataset (add_dynamic_item d item))) datasets.

(** [set_output_keys(datasets, keys)]: each dataset of the list, in place. *)
Definition set_output_keys_st (datasets : list nat) (keys : list string) : St unit :=
  for_each (fun ref =>
              d ← get_dataset ref;
              set_object ref (ODataset (set_output_keys d keys))) datasets.

(** A method of the encoder that updates it in place. *)
Definition encoder_call (encoder : nat) (f : CTCTextEncoder → CTCTextEncoder) : St unit :=
  e ← get_encoder encoder;
  set_object encoder (OEncoder (f e)).

(** [encoder.update_from_didataset(dataset, output_key)]: record by record,
    the key is computed against the encoder as it is in the store, and the
    encoder is updated in place. *)
Definition update_from_didataset_st (encoder dataset : nat) (output_key : string)
    : St unit :=
  d ← get_dataset dataset;
  for_each (fun u =>
              e ← get_encoder encoder;
              match compute_key e d u output_key with
              | inl err => St_raise err
              | inr (VList labels) =>
                  set_object encoder (OEncoder (update_from_iterable e labels))
              | inr _ => St_raise (TypeError "expected a sequence of labels")
              end) (data d).

(** [data_prep], lines 79-131, on the store.  It returns the references of
    the two datasets and of the encoder; the text pipeline of both datasets
    reads the encoder through the third. *)
Definition data_prep_st (data_folder : string) (hparams : HParams) : St (nat * nat * nat) :=
  (* 1. Declarations *)
  train_data ← from_json_st (path_join data_folder "train.json")
                 [("data_root", data_folder)];
  valid_data ← from_json_st (path_join data_folder "dev.json")
                 [("data_root", data_folder)];
  let datasets := [train_data; valid_data] in
  label_encoder ← new_object (OEncoder CTCTextEncoder_new);
  (* 2. Define audio pipeline *)
  add_dynamic_item_st datasets audio_pipeline;;
  (* 3. Define text pipeline *)
  add_dynamic_item_st datasets text_pipeline;;
  (* 3. Fit encoder *)
  encoder_call label_encoder (insert_blank blank_label_default (blank_index hparams));;
  encoder_call label_encoder
    (insert_bos_eos bos_label_default "<bos>" (bos_index hparams) eos_index_default);;
  update_from_didataset_st label_encoder train_data "phn_list";;
  update_from_didataset_st label_encoder valid_data "phn_list";;
  (* 4. Set output *)
  set_output_keys_st datasets ["id"; "sig"; "phn_encoded"; "phn_encoded_bos"];;
  mret (train_data, valid_data, label_encoder).

(** [len(dataset)], through the reference. *)
Definition len_st (s : Store) (dataset : nat) : Result nat :=
  match heap s !! dataset with
  | Some (ODataset d) => inr (Dataset_len d)
  | _ => raise (TypeError "not a dataset")
  end.

(** One field of the [i]-th record of a dataset, through the references of
    the dataset and of the encoder its text pipeline reads. *)
Definition item_key (s : Store) (dataset encoder : nat) (i : nat) (key : string)
    : Result Value :=
  match heap s !! dataset, heap s !! encoder with
  | Some (ODataset d), Some (OEncoder e) =>
      match data d !! i with
      | Some u => compute_key e d u key
      | None => raise IndexError
      end
  | _, _ => raise (TypeError "not a dataset and an encoder")
  end.

Lemma St_bind_run {A B : Type} (m : St A) (f : A → St B) (s : Store) :
  (m ≫= f) s =
    match m s with
    | (inl e, s') => (inl e, s')
    | (inr x, s') => f x s'
    end.
Proof. reflexivity. Qed.

Lemma heap_lookup_0 (h : list Obj) (a : Obj) (l : list Obj) :
  (h ++ a :: l) !! length h = Some a.
Proof. induction h; [reflexivity|assumption]. Qed.

Lemma heap_lookup_1 (h : list Obj) (a b : Obj) (l : list Obj) :
  (h ++ a :: b :: l) !! S (length h) = Some b.
Proof. induction h; [reflexivity|assumption]. Qed.

Lemma heap_lookup_2 (h : list Obj) (a b c : Obj) (l : list Obj) :
  (h ++ a :: b :: c :: l) !! S (S (length h)) = Some c.
Proof. induction h; [reflexivity|assumption]. Qed.

Lemma heap_insert_0 (h : list Obj) (a x : Obj) (l : list Obj) :
  <[length h := x]> (h ++ a :: l) = h ++ x :: l.
Proof. induction h; cbn; [reflexivity|by f_equal]. Qed.

Lemma heap_insert_1 (h : list Obj) (a b x : Obj) (l : list Obj) :
  <[S (length h) := x]> (h ++ a :: b :: l) = h ++ a :: x :: l.
Proof. induction h; cbn; [reflexivity|by f_equal]. Qed.

Lemma heap_insert_2 (h : list Obj) (a b c x : Obj) (l : list Obj) :
  <[S (S (length h)) := x]> (h ++ a :: b :: c :: l) = h ++ a :: b :: x :: l.
Proof. induction h; cbn; [reflexivity|by f_equal]. Qed.

(** The update of a dataset in place. *)
Lemma dataset_update (fs : FileSystem) (hp : list Obj) (ref : nat) (d : Dataset)
    (f : Dataset → Dataset) :
  hp !! ref = Some (ODataset d) →
  (d ← get_dataset ref; set_object ref (ODataset (f d))) {| files := fs; heap := hp |} =
    (inr tt, {| files := fs; heap := <[ref := ODataset (f d)]> hp |}).
Proof.
  intros Hd. rewrite St_bind_run. unfold get_dataset. cbn [heap]. by rewrite Hd.
Qed.

(** The update of an encoder in place. *)
Lemma encoder_update (fs : FileSystem) (hp : list Obj) (ref : nat) (e : CTCTextEncoder)
    (f : CTCTextEncoder → CTCTextEncoder) :
  hp !! ref = Some (OEncoder e) →
  encoder_call ref f {| files := fs; heap := hp |} =
    (inr tt, {| files := fs; heap := <[ref := OEncoder (f e)]> hp |}).
Proof.
  intros He. unfold encoder_call. rewrite St_bind_run. unfold get_encoder. cbn [heap].
  by rewrite He.
Qed.

(** The scan of the records of a dataset that has the two pipelines. *)
Lemma scan_records (fs : FileSystem) (entries : list Utterance) (keys : list string)
    (encoder : nat) (us : list Utterance) (hp : list Obj) (e : CTCTextEncoder) :
  hp !! encoder = Some (OEncoder e) →
  for_each (fun u =>
              e ← get_encoder encoder;
              match compute_key e {| data := entries;
                                     pipeline := [audio_pipeline; text_pipeline];
                                     output_keys := keys |} u "phn_list" with
              | inl err => St_raise err
              | inr (VList labels) =>
                  set_object encoder (OEncoder (update_from_iterable e labels))
              | inr _ => St_raise (TypeError "expected a sequence of labels")
              end) us {| files := fs; heap := hp |} =
    (inr tt,
     {| files := fs;
        heap := <[encoder := OEncoder (update_from_iterable e (phoneme_symbols us))]> hp |}).
Proof.
  revert hp e. induction us as [|u us IH]; intros hp e He.
  - cbn [for_each]. by rewrite list_insert_id.
  - cbn [for_each]. rewrite St_bind_run. rewrite St_bind_run.
    unfold get_encoder at 1. cbn [heap]. rewrite He.
    rewrite compute_key_phn_list. unfold set_object at 1. cbn [files heap].
    rewrite (IH _ (update_from_iterable e (split (strip (phn u))))).
    + rewrite list_insert_insert_eq. unfold phoneme_symbols. cbn [fmap list_fmap concat].
      by rewrite update_from_iterable_app.
    + apply list_lookup_insert_eq. by eapply lookup_lt_Some.
Qed.

Lemma update_from_didataset_at (fs : FileSystem) (hp : list Obj) (encoder dataset : nat)
    (entries : list Utterance) (keys : list string) (e : CTCTextEncoder) :
  hp !! dataset = Some (ODataset {| data := entries;
                                    pipeline := [audio_pipeline; text_pipeline];
                                    output_keys := keys |}) →
  hp !! encoder = Some (OEncoder e) →
  update_from_didataset_st encoder dataset "phn_list" {| files := fs; heap := hp |} =
    (inr tt,
     {| files := fs;
        heap := <[encoder := OEncoder (update_from_iterable e (phoneme_symbols entries))]> hp |}).
Proof.
  intros Hd He. unfold update_from_didataset_st. rewrite St_bind_run.
  unfold get_dataset. cbn [heap]. rewrite Hd. cbn [data].
  by apply scan_records.
Qed.

(** [data_prep] on the store: what a call leaves behind and returns, from
    the two manifests as the files give them. *)
Lemma data_prep_st_spec (data_folder : string) (hparams : HParams) (fs : FileSystem)
    (h : list Obj) :
  data_prep_st data_folder hparams {| files := fs; heap := h |} =
    match fs (path_join data_folder "train.json") [("data_root", data_folder)] with
    | inl e => (inl e, {| files := fs; heap := h |})
    | inr train =>
        match fs (path_join data_folder "dev.json") [("data_root", data_folder)] with
        | inl e =>
            (inl e,
             {| files := fs;
                heap := h ++ [ODataset {| data := train; pipeline := [];
                                          output_keys := [] |}] |})
        | inr valid =>
            (inr (length h, S (length h), S (S (length h))),
             {| files := fs;
                heap := h ++ [ODataset (prepared train); ODataset (prepared valid);
                              OEncoder (fitted_encoder hparams train valid)] |})
        end
    end.
Proof.
  unfold data_prep_st. rewrite St_bind_run.
  unfold from_json_st at 1, from_json. cbn [files].
  destruct (fs (path_join data_folder "train.json") _) as [e|train]; [reflexivity|].
  cbn [mbind Result_bind mret Result_ret]. unfold new_object at 1. cbn [files heap].
  rewrite St_bind_run. unfold from_json_st at 1, from_json. cbn [files].
  destruct (fs (path_join data_folder "dev.json") _) as [e|valid]; [reflexivity|].
  cbn [mbind Result_bind mret Result_ret]. unfold new_object at 1. cbn [files heap].
  rewrite St_bind_run. unfold new_object at 1. cbn [files heap].
  rewrite <- !app_assoc. cbn [app].
  rewrite !length_app. cbn [length]. rewrite !Nat.add_1_r.
  replace (length h + 2)%nat with (S (S (length h))) by lia.
  (* 2. audio pipeline, 3. text pipeline *)
  do 2 (rewrite St_bind_run; unfold add_dynamic_item_st at 1; cbn [for_each];
        rewrite St_bind_run, (dataset_update _ _ _ _ (fun d => add_dynamic_item d _)
                                (heap_lookup_0 _ _ _)), heap_insert_0;
        rewrite St_bind_run, (dataset_update _ _ _ _ (fun d => add_dynamic_item d _)
                                (heap_lookup_1 _ _ _ _)), heap_insert_1;
        unfold mret at 1, St_ret at 1).
  unfold add_dynamic_item. cbn [data pipeline output_keys app].
  (* 3. Fit encoder *)
  rewrite St_bind_run, (encoder_update _ _ _ _ _ (heap_lookup_2 _ _ _ _ _)), heap_insert_2.
  rewrite St_bind_run, (encoder_update _ _ _ _ _ (heap_lookup_2 _ _ _ _ _)), heap_insert_2.
  rewrite St_bind_run,
    (update_from_didataset_at _ _ _ _ _ _ _ (heap_lookup_0 _ _ _) (heap_lookup_2 _ _ _ _ _)),
    heap_insert_2.
  rewrite St_bind_run,
    (update_from_didataset_at _ _ _ _ _ _ _ (heap_lookup_1 _ _ _ _) (heap_lookup_2 _ _ _ _ _)),
    heap_insert_2.
  (* 4. Set output *)
  rewrite St_bind_run. unfold set_output_keys_st. cbn [for_each].
  rewrite St_bind_run, (dataset_update _ _ _ _ (fun d => set_output_keys d _)
                          (heap_lookup_0 _ _ _)), heap_insert_0.
  rewrite St_bind_run, (dataset_update _ _ _ _ (fun d => set_output_keys d _)
                          (heap_lookup_1 _ _ _ _)), heap_insert_1.
  reflexivity.
Qed.

(** The encoded and the start-prefixed sequence of the [i]-th record of a
    dataset. *)
Definition encoded_sequences (s : Store) (dataset encoder : nat) (i : nat)
    : Result Value * Result Value :=
  (item_key s dataset encoder i "phn_encoded",
   item_key s dataset encoder i "phn_encoded_bos").

(** C6: two calls of [data_prep], one after the other, with the same data
    folder and the same configuration, end alike: both raise the same error,
    or both return.  When they return, the six objects they return are six
    different ones, the second call has left the datasets and the encoder of
    the first as they were, the datasets of the two calls have the same
    sizes, and record by record the encoded and the start-prefixed sequences
    of the two calls are the same; for every record there are such
    sequences. *)
Theorem data_prep_twice (data_folder : string) (hparams : HParams) (s0 : Store) :
  let r1 := data_prep_st data_folder hparams s0 in
  let r2 := data_prep_st data_folder hparams r1.2 in
  match r1.1, r2.1 with
  | inr (train1, valid1, encoder1), inr (train2, valid2, encoder2) =>
      NoDup [train1; valid1; encoder1; train2; valid2; encoder2] ∧
      ∃ n m,
        len_st r1.2 train1 = inr n ∧ len_st r2.2 train1 = inr n ∧
        len_st r2.2 train2 = inr n ∧
        len_st r1.2 valid1 = inr m ∧ len_st r2.2 valid1 = inr m ∧
        len_st r2.2 valid2 = inr m ∧
        ∀ i,
          encoded_sequences r2.2 train1 encoder1 i =
            encoded_sequences r1.2 train1 encoder1 i ∧
          encoded_sequences r2.2 valid1 encoder1 i =
            encoded_sequences r1.2 valid1 encoder1 i ∧
          encoded_sequences r2.2 train2 encoder2 i =
            encoded_sequences r2.2 train1 encoder1 i ∧
          encoded_sequences r2.2 valid2 encoder2 i =
            encoded_sequences r2.2 valid1 encoder1 i ∧
          ((i < n)%nat →
             ∃ x, encoded_sequences r2.2 train2 encoder2 i =
                    (inr (VLong x), inr (VLong (bos_index hparams :: x)))) ∧
          ((i < m)%nat →
             ∃ x, encoded_sequences r2.2 valid2 encoder2 i =
                    (inr (VLong x), inr (VLong (bos_index hparams :: x))))
  | inl err1, inl err2 => err1 = err2
  | _, _ => False
  end.
Proof.
  destruct s0 as [fs h]. cbn zeta. rewrite data_prep_st_spec.
  destruct (fs (path_join data_folder "train.json") _) as [e|train] eqn:Htrain.
  { cbn [fst snd]. rewrite data_prep_st_spec, Htrain. reflexivity. }
  destruct (fs (path_join data_folder "dev.json") _) as [e|valid] eqn:Hvalid.
  { cbn [fst snd]. rewrite data_prep_st_spec, Htrain, Hvalid. reflexivity. }
  cbn [fst snd]. rewrite data_prep_st_spec, Htrain, Hvalid. cbn [fst snd heap].
  set (a := ODataset (prepared train)). set (b := ODataset (prepared valid)).
  set (c := OEncoder (fitted_encoder hparams train valid)).
  set (h1 := h ++ [a; b; c]).
  assert (Hlen : length h1 = (length h + 3)%nat)
    by (unfold h1; rewrite length_app; reflexivity).
  assert (H1 : h1 !! length h = Some a ∧ h1 !! S (length h) = Some b ∧
               h1 !! S (S (length h)) = Some c).
  { unfold h1. split; [apply heap_lookup_0|]. split; [apply heap_lookup_1|].
    apply heap_lookup_2. }
  assert (H2 : (h1 ++ [a; b; c]) !! length h = Some a ∧
               (h1 ++ [a; b; c]) !! S (length h) = Some b ∧
               (h1 ++ [a; b; c]) !! S (S (length h)) = Some c).
  { unfold h1. rewrite <- app_assoc. cbn [app].
    split; [apply heap_lookup_0|]. split; [apply heap_lookup_1|]. apply heap_lookup_2. }
  assert (H3 : (h1 ++ [a; b; c]) !! length h1 = Some a ∧
               (h1 ++ [a; b; c]) !! S (length h1) = Some b ∧
               (h1 ++ [a; b; c]) !! S (S (length h1)) = Some c).
  { split; [apply heap_lookup_0|]. split; [apply heap_lookup_1|]. apply heap_lookup_2. }
  destruct H1 as (H1a & H1b & H1c), H2 as (H2a & H2b & H2c), H3 as (H3a & H3b & H3c).
  split.
  - rewrite Hlen.
    repeat (apply NoDup_cons; split;
            [rewrite ?not_elem_of_cons; repeat split; try lia; apply not_elem_of_nil|]).
    apply NoDup_nil_2.
  - exists (length train), (length valid). unfold len_st, encoded_sequences, item_key.
    cbn [heap]. rewrite H1a, H1b, H1c, H2a, H2b, H2c, H3a, H3b, H3c.
    do 6 (split; [reflexivity|]). intros i. do 4 (split; [reflexivity|]).
    unfold a, b, c. cbn [data prepared]. split.
    + intros [u Hu]%lookup_lt_is_Some_2. rewrite Hu.
      destruct (prepared_encoded hparams train valid train u) as (x & Hx & Hbos);
        [by left|by eapply list_elem_of_lookup_2|].
      exists x. by rewrite Hx, Hbos.
    + intros [u Hu]%lookup_lt_is_Some_2. rewrite Hu.
      destruct (prepared_encoded hparams train valid valid u) as (x & Hx & Hbos);
        [by right|by eapply list_elem_of_lookup_2|].
      exists x. by rewrite Hx, Hbos.
Qed.

End Store.

(** The store of the small instance before any call. *)
Definition demo_store : @Store demo_toolkit := {| files := demo_files; heap := [] |}.

Example data_prep_twice_demo :
  let r1 := data_prep_st (TK := demo_toolkit) "/d" demo_hparams demo_store in
  let r2 := data_prep_st (TK := demo_toolkit) "/d" demo_hparams r1.2 in
  r1.1 = inr (0, 1, 2)%nat ∧ r2.1 = inr (3, 4, 5)%nat ∧
  encoded_sequences r2.2 0 2 0 =
    (inr (VLong [2; 3; 4; 2]), inr (VLong [1; 2; 3; 4; 2])) ∧
  encoded_sequences r2.2 3 5 0 =
    (inr (VLong [2; 3; 4; 2]), inr (VLong [1; 2; 3; 4; 2])) ∧
  len_st r2.2 0 = inr 2%nat ∧ len_st r2.2 3 = inr 2%nat.
Proof.
  set (objects := [ODataset (prepared (TK := demo_toolkit) demo_train);
                   ODataset (prepared demo_valid);
                   OEncoder (fitted_encoder demo_hparams demo_train demo_valid)]).
  assert (E1 : data_prep_st (TK := demo_toolkit) "/d" demo_hparams demo_store =
               (inr (0, 1, 2)%nat, {| files := demo_files; heap := objects |}))
    by (unfold demo_store; rewrite data_prep_st_spec; reflexivity).
  assert (E2 : data_prep_st (TK := demo_toolkit) "/d" demo_hparams
                 {| files := demo_files; heap := objects |} =
               (inr (3, 4, 5)%nat, {| files := demo_files; heap := objects ++ objects |}))
    by (rewrite data_prep_st_spec; reflexivity).
  cbn zeta. rewrite E1. cbn [fst snd]. rewrite E2. cbn [fst snd].
  repeat split; vm_compute; reflexivity.
Qed.

(** C6 on the small instance: two calls on the store with no object yet. *)
Lemma data_prep_twice_witness :
  let r1 := data_prep_st (TK := demo_toolkit) "/d" demo_hparams demo_store in
  let r2 := data_prep_st (TK := demo_toolkit) "/d" demo_hparams r1.2 in
  match r1.1, r2.1 with
  | inr (train1, valid1, encoder1), inr (train2, valid2, encoder2) =>
      NoDup [train1; valid1; encoder1; train2; valid2; encoder2] ∧
      ∃ n m,
        len_st r1.2 train1 = inr n ∧ len_st r2.2 train1 = inr n ∧
        len_st r2.2 train2 = inr n ∧
        len_st r1.2 valid1 = inr m ∧ len_st r2.2 valid1 = inr m ∧
        len_st r2.2 valid2 = inr m ∧
        ∀ i,
          encoded_sequences r2.2 train1 encoder1 i =
            encoded_sequences r1.2 train1 encoder1 i ∧
          encoded_sequences r2.2 valid1 encoder1 i =
            encoded_sequences r1.2 valid1 encoder1 i ∧
          encoded_sequences r2.2 train2 encoder2 i =
            encoded_sequences r2.2 train1 encoder1 i ∧
          encoded_sequences r2.2 valid2 encoder2 i =
            encoded_sequences r2.2 valid1 encoder1 i ∧
          ((i < n)%nat →
             ∃ x, encoded_sequences r2.2 train2 encoder2 i =
                    (inr (VLong x), inr (VLong (bos_index demo_hparams :: x)))) ∧
          ((i < m)%nat →
             ∃ x, encoded_sequences r2.2 valid2 encoder2 i =
                    (inr (VLong x), inr (VLong (bos_index demo_hparams :: x))))
  | inl err1, inl err2 => err1 = err2
  | _, _ => False
  end.
Proof.
  exact (data_prep_twice (TK := demo_toolkit) "/d" demo_hparams demo_store).
Defined.
